(** * pbs: command invocation engine

    A shallow embedding of [pbs.py] (version 0.82): argument compilation,
    baking, the prefix ("with") stack, process launch, exit-status
    classification and the two stream collector threads.

    The embedding follows the Python 2 reading of the module
    ([IS_PY3 = False]): strings are byte strings, [str] and [repr] are
    those of Python 2. *)

From Stdlib Require Import ZArith String Ascii List Lia Bool DecimalString DecimalZ DecimalPos.
From stdpp Require Import base option list gmap strings.
Import ListNotations.

(** ** Python strings *)

Module PyString.

Definition squote : ascii := "'"%char.
Definition dquote : ascii := "034"%char.
Definition backslash : ascii := "\"%char.
Definition tab : ascii := "009"%char.
Definition newline : ascii := "010"%char.
Definition creturn : ascii := "013"%char.
Definition space : ascii := " "%char.

Definition char (c : ascii) : string := String c EmptyString.

(** [sep.join(parts)] *)
Fixpoint join (sep : string) (parts : list string) : string :=
  match parts with
  | [] => ""
  | [p] => p
  | p :: rest => p +:+ sep +:+ join sep rest
  end.

(** [c in s] for a one-character [c] *)
Fixpoint contains (c : ascii) (s : string) : bool :=
  match s with
  | EmptyString => false
  | String d s' => Ascii.eqb c d || contains c s'
  end.

(** [s.replace(a, b)] for one-character [a] and [b] *)
Fixpoint replace (a b : ascii) (s : string) : string :=
  match s with
  | EmptyString => EmptyString
  | String c s' => String (if Ascii.eqb c a then b else c) (replace a b s')
  end.

(** ["%d" % z] *)
Definition of_Z (z : Z) : string := NilZero.string_of_int (Z.to_int z).

(** [s[:n]] *)
Definition take (n : nat) (s : string) : string := String.substring 0 n s.

Definition hex_digit (n : N) : ascii :=
  match n with
  | 0 => "0" | 1 => "1" | 2 => "2" | 3 => "3" | 4 => "4" | 5 => "5"
  | 6 => "6" | 7 => "7" | 8 => "8" | 9 => "9" | 10 => "a" | 11 => "b"
  | 12 => "c" | 13 => "d" | 14 => "e" | _ => "f"
  end%N%char.

(** one character of [repr(s)], inside the quotes [q] *)
Definition repr_char (q c : ascii) : string :=
  if Ascii.eqb c q || Ascii.eqb c backslash then String backslash (char c)
  else if Ascii.eqb c tab then String backslash "t"
  else if Ascii.eqb c newline then String backslash "n"
  else if Ascii.eqb c creturn then String backslash "r"
  else
    let n := N_of_ascii c in
    if (n <? 32)%N || (127 <=? n)%N
    then String backslash (String "x" (String (hex_digit (n / 16)) (char (hex_digit (n mod 16)))))
    else char c.

Fixpoint repr_body (q : ascii) (s : string) : string :=
  match s with
  | EmptyString => EmptyString
  | String c s' => repr_char q c +:+ repr_body q s'
  end.

(** [repr(s)] of a byte string: single quotes, unless the string holds a
    single quote and no double quote. *)
Definition repr (s : string) : string :=
  let q := if contains squote s && negb (contains dquote s) then dquote else squote in
  String q (repr_body q s +:+ char q).

End PyString.

(** ** Python values *)

(** The values a caller passes to a command: the plain data types, function
    objects (by identity, with their declared number of arguments), file
    objects and invocation handles (references into the store of
    [RunningCommand] objects).  [VInt] stands for [int], not [long]. *)
#[local] Unset Elimination Schemes.
Inductive pyval : Type :=
| VNone
| VBool (b : bool)
| VInt (z : Z)
| VStr (s : string)
| VList (items : list pyval)
| VTuple (items : list pyval)
| VFunction (f : nat) (nargs : nat)
| VFile (fd : nat)
| VRunning (h : nat).
#[local] Set Elimination Schemes.

Module PyVal.

(** [repr(v)].  [None] where the text is not a function of the value
    alone (object addresses, invocation handles). *)
Fixpoint repr (v : pyval) : option string :=
  let fix reprs (l : list pyval) : option (list string) :=
    match l with
    | [] => Some []
    | x :: r =>
        match repr x, reprs r with
        | Some a, Some b => Some (a :: b)
        | _, _ => None
        end
    end in
  match v with
  | VNone => Some "None"
  | VBool true => Some "True"
  | VBool false => Some "False"
  | VInt z => Some (PyString.of_Z z)
  | VStr s => Some (PyString.repr s)
  | VList l =>
      match reprs l with
      | Some rs => Some ("[" +:+ PyString.join ", " rs +:+ "]")
      | None => None
      end
  | VTuple l =>
      match reprs l with
      | Some [r] => Some ("(" +:+ r +:+ ",)")
      | Some rs => Some ("(" +:+ PyString.join ", " rs +:+ ")")
      | None => None
      end
  | VFunction _ _ | VFile _ | VRunning _ => None
  end.

(** [str(v)] for the plain data types *)
Definition str (v : pyval) : option string :=
  match v with
  | VStr s => Some s
  | _ => repr v
  end.

(** [bool(v)]; [None] for an invocation handle, whose truth value is the
    length of its rendered output. *)
Definition truth (v : pyval) : option bool :=
  match v with
  | VNone => Some false
  | VBool b => Some b
  | VInt z => Some (negb (z =? 0)%Z)
  | VStr s => Some (negb (String.eqb s ""))
  | VList l | VTuple l => Some (match l with [] => false | _ => true end)
  | VFunction _ _ | VFile _ => Some true
  | VRunning _ => None
  end.

(** [v is True] *)
Definition is_True (v : pyval) : bool :=
  match v with VBool true => true | _ => false end.

End PyVal.

(** ** [shlex.split]

    The standard library tokenizer as [shlex.split(s)] runs it: POSIX mode,
    [whitespace_split = True], no comment characters.  [read_token] is a
    character loop over four lexer states; a token is emitted when a word
    ends, and the iteration stops at the first end-of-input token. *)

Module shlex.
Import PyString.

Definition whitespace (c : ascii) : bool :=
  Ascii.eqb c space || Ascii.eqb c tab || Ascii.eqb c creturn || Ascii.eqb c newline.
Definition quotes (c : ascii) : bool := Ascii.eqb c squote || Ascii.eqb c dquote.
Definition escape (c : ascii) : bool := Ascii.eqb c backslash.
Definition escapedquotes (c : ascii) : bool := Ascii.eqb c dquote.

(** the lexer's [state]: [' '], ['a'], a quote character, or an escape
    character together with [escapedstate] *)
Inductive state :=
| InSpace
| InWord
| InQuote (q : ascii)
| InEscape (esc : ascii) (escapedstate : option ascii).

Definition unescaped (escapedstate : option ascii) : state :=
  match escapedstate with None => InWord | Some q => InQuote q end.

(** [token] and [quoted] are the lexer's variables of the same names,
    [done] the tokens already returned.  [None] is [ValueError]. *)
Fixpoint read (st : state) (token : string) (quoted : bool)
    (done : list string) (input : string) : option (list string) :=
  match input with
  | EmptyString =>
      match st with
      | InSpace => Some done
      | InWord =>
          if negb (String.eqb token "") || quoted then Some (done ++ [token]) else Some done
      | InQuote _ => None
      | InEscape _ _ => None
      end
  | String c rest =>
      match st with
      | InSpace =>
          if whitespace c then
            if negb (String.eqb token "") || quoted
            then read InSpace "" false (done ++ [token]) rest
            else read InSpace token quoted done rest
          else if escape c then read (InEscape c None) token quoted done rest
          else if quotes c then read (InQuote c) token quoted done rest
          else read InWord (char c) quoted done rest
      | InQuote q =>
          if Ascii.eqb c q then read InWord token true done rest
          else if escape c && escapedquotes q
          then read (InEscape c (Some q)) token true done rest
          else read (InQuote q) (token +:+ char c) true done rest
      | InEscape esc escapedstate =>
          let token :=
            match escapedstate with
            | Some q =>
                if negb (Ascii.eqb c esc) && negb (Ascii.eqb c q)
                then token +:+ char esc else token
            | None => token
            end in
          read (unescaped escapedstate) (token +:+ char c) quoted done rest
      | InWord =>
          if whitespace c then
            if negb (String.eqb token "") || quoted
            then read InSpace "" false (done ++ [token]) rest
            else read InSpace token quoted done rest
          else if quotes c then read (InQuote c) token quoted done rest
          else if escape c then read (InEscape c None) token quoted done rest
          else read InWord (token +:+ char c) quoted done rest
      end
  end.

Definition split (s : string) : option (list string) := read InSpace "" false [] s.

End shlex.


(** ** Interpreter state *)

(** Keys of [rc_exc_cache]: the module uses both integers and strings. *)
Inductive pykey := KInt (z : Z) | KStr (s : string).

#[global] Instance pykey_eq_dec : EqDecision pykey.
Proof. solve_decision. Defined.

#[global] Instance pykey_countable : Countable pykey.
Proof.
  refine (inj_countable'
    (fun k => match k with KInt z => inl z | KStr s => inr s end)
    (fun x => match x with inl z => KInt z | inr s => KStr s end) _).
  intros []; reflexivity.
Defined.

(** A class object: its name and its direct bases.  Class objects are
    identified by their position in the class table, so two classes of the
    same name are two objects. *)
Record pyclass := { cls_name : string; cls_bases : list nat }.

(** An exception instance: one of the interpreter's own, or an instance of a
    class derived from [ErrorReturnCode] with the attributes its
    constructor stores. *)
Inductive pyexc :=
| Builtin (cls : nat) (msg : string)
| ReturnCodeError (cls : nat) (full_cmd stdout stderr : pyval) (msg : string).

Definition exc_class (e : pyexc) : nat :=
  match e with Builtin c _ | ReturnCodeError c _ _ _ _ => c end.

Module Cls.
Definition Exception : nat := 0.
Definition StandardError : nat := 1.
Definition TypeError : nat := 2.
Definition ValueError : nat := 3.
Definition LookupError : nat := 4.
Definition KeyError : nat := 5.
Definition IndexError : nat := 6.
Definition AttributeError : nat := 7.
Definition UnicodeError : nat := 8.
Definition UnicodeDecodeError : nat := 9.
Definition ErrorReturnCode : nat := 10.
Definition CommandNotFound : nat := 11.

(** the class table when the module has been imported *)
Definition initial : list pyclass :=
  [ {| cls_name := "Exception"; cls_bases := [] |};
    {| cls_name := "StandardError"; cls_bases := [Exception] |};
    {| cls_name := "TypeError"; cls_bases := [StandardError] |};
    {| cls_name := "ValueError"; cls_bases := [StandardError] |};
    {| cls_name := "LookupError"; cls_bases := [StandardError] |};
    {| cls_name := "KeyError"; cls_bases := [LookupError] |};
    {| cls_name := "IndexError"; cls_bases := [LookupError] |};
    {| cls_name := "AttributeError"; cls_bases := [StandardError] |};
    {| cls_name := "UnicodeError"; cls_bases := [ValueError] |};
    {| cls_name := "UnicodeDecodeError"; cls_bases := [UnicodeError] |};
    {| cls_name := "ErrorReturnCode"; cls_bases := [Exception] |};
    {| cls_name := "CommandNotFound"; cls_bases := [Exception] |} ].

(** [issubclass(c, d)], following the bases at most [depth] levels up *)
Fixpoint issubclass (depth : nat) (tbl : list pyclass) (c d : nat) : bool :=
  Nat.eqb c d ||
  match depth with
  | O => false
  | S n =>
      match tbl !! c with
      | Some k => existsb (fun b => issubclass n tbl b d) (cls_bases k)
      | None => false
      end
  end.
End Cls.

(** How a standard stream of a child process is wired. *)
Inductive wiring :=
| PIPE                      (* subp.PIPE *)
| INHERIT                   (* None *)
| TO_FILE (f : pyval)       (* a file object *)
| OPENED (path : string)    (* file(path, "w") *)
| STDOUT                    (* subp.STDOUT *)
| FROM (producer : nat).    (* the stdout pipe of another process *)

Record popen_obj := {
  p_args : list string;
  p_stdin : wiring;
  p_stdout : wiring;
  p_stderr : wiring;
  returncode : option Z
}.

(** A collector thread object: the arguments of its [_collect_stream]. *)
Record thread_obj := { t_fn : pyval; t_bufsize : pyval }.

Record running_obj := {
  command_ran : string;
  process : option nat;
  _stdout : pyval;
  _stderr : pyval;
  _stdout_thread : option thread_obj;
  _stderr_thread : option thread_obj;
  call_args : gmap string pyval;
  is_collecting_streams : bool
}.

Record command_obj := {
  _path : string;
  _partial : bool;
  _partial_baked_args : list string;
  _partial_call_args : gmap string pyval
}.

(** The module's globals and the stores of the objects it creates. *)
Record interp := {
  classes : list pyclass;
  rc_exc_cache : gmap pykey nat;
  _prepend_stack : list (list string);
  commands : list command_obj;
  processes : list popen_obj;
  invocations : list running_obj
}.

Definition initial_interp : interp :=
  {| classes := Cls.initial; rc_exc_cache := ∅; _prepend_stack := [];
     commands := []; processes := []; invocations := [] |}.

(** What the operating system and the codec contribute: what a child process
    writes and how it exits, given its argv and the text sent to its stdin,
    and which byte strings decode as UTF-8. *)
Record exit_report := { out_text : string; err_text : string; exit_code : Z }.
Record world := {
  os_run : nat -> list string -> option string -> exit_report;
  utf8_valid : string -> bool
}.

(** ** The interpreter monad: state, exceptions *)

Inductive outcome (A : Type) :=
| Ok (a : A)
| Raise (e : pyexc)
| Outside.   (* behaviour the sequential model does not determine *)
Arguments Ok {A} a.
Arguments Raise {A} e.
Arguments Outside {A}.

Definition M (A : Type) : Type := interp -> outcome A * interp.

Definition ret {A} (a : A) : M A := fun st => (Ok a, st).
Definition bind {A B} (c : M A) (k : A -> M B) : M B := fun st =>
  match c st with
  | (Ok a, st') => k a st'
  | (Raise e, st') => (Raise e, st')
  | (Outside, st') => (Outside, st')
  end.

Declare Scope py_scope.
Notation "x ← y ; z" := (bind y (fun x => z))
  (at level 20, y at level 100, z at level 200, only parsing) : py_scope.
Notation "' x ← y ; z" := (bind y (fun x => z))
  (at level 20, x pattern, y at level 100, z at level 200, only parsing) : py_scope.
Notation "x ;; z" := (bind x (fun _ => z))
  (at level 100, z at level 200, only parsing, right associativity) : py_scope.
Open Scope py_scope.

Definition raise {A} (cls : nat) (msg : string) : M A := fun st => (Raise (Builtin cls msg), st).
Definition throw {A} (e : pyexc) : M A := fun st => (Raise e, st).
Definition outside {A} : M A := fun st => (Outside, st).
Definition gets {A} (f : interp -> A) : M A := fun st => (Ok (f st), st).
Definition modify (f : interp -> interp) : M unit := fun st => (Ok tt, f st).

Definition when_ {A} (b : bool) (c : M A) : M unit :=
  if b then c;; ret tt else ret tt.

Definition of_option {A} (o : option A) : M A :=
  match o with Some a => ret a | None => outside end.

Fixpoint mapM_ {A B} (f : A -> M B) (l : list A) : M (list B) :=
  match l with
  | [] => ret []
  | x :: r => y ← f x; ys ← mapM_ f r; ret (y :: ys)
  end.

Definition set_classes (v : list pyclass) (st : interp) : interp :=
  {| classes := v; rc_exc_cache := rc_exc_cache st; _prepend_stack := _prepend_stack st;
     commands := commands st; processes := processes st; invocations := invocations st |}.
Definition set_rc_exc_cache (v : gmap pykey nat) (st : interp) : interp :=
  {| classes := classes st; rc_exc_cache := v; _prepend_stack := _prepend_stack st;
     commands := commands st; processes := processes st; invocations := invocations st |}.
Definition set_prepend_stack (v : list (list string)) (st : interp) : interp :=
  {| classes := classes st; rc_exc_cache := rc_exc_cache st; _prepend_stack := v;
     commands := commands st; processes := processes st; invocations := invocations st |}.
Definition set_commands (v : list command_obj) (st : interp) : interp :=
  {| classes := classes st; rc_exc_cache := rc_exc_cache st; _prepend_stack := _prepend_stack st;
     commands := v; processes := processes st; invocations := invocations st |}.
Definition set_processes (v : list popen_obj) (st : interp) : interp :=
  {| classes := classes st; rc_exc_cache := rc_exc_cache st; _prepend_stack := _prepend_stack st;
     commands := commands st; processes := v; invocations := invocations st |}.
Definition set_invocations (v : list running_obj) (st : interp) : interp :=
  {| classes := classes st; rc_exc_cache := rc_exc_cache st; _prepend_stack := _prepend_stack st;
     commands := commands st; processes := processes st; invocations := v |}.

(** [d[k]] on a dict with string keys *)
Definition getitem (d : gmap string pyval) (k : string) : M pyval :=
  match d !! k with
  | Some v => ret v
  | None => raise Cls.KeyError k
  end.

Definition truthy (v : pyval) : M bool := of_option (PyVal.truth v).

(** [isinstance(e, d)] in the current class table *)
Definition isinstance (st : interp) (e : pyexc) (d : nat) : bool :=
  Cls.issubclass (length (classes st)) (classes st) (exc_class e) d.

(** ** [ErrorReturnCode] and [get_rc_exc] *)

Module ErrorReturnCode.

Definition truncate_cap : nat := 750.

(** the preview of one captured stream in the message *)
Definition preview (attr : string) (v : pyval) : M string :=
  match v with
  | VNone => ret "<redirected>"
  | VStr s =>
      let t := PyString.take truncate_cap s in
      let delta := (String.length s - String.length t)%nat in
      ret (if Nat.eqb delta 0 then t
            else t +:+ "... (" +:+ PyString.of_Z (Z.of_nat delta)
                   +:+ " more, please see e." +:+ attr +:+ ")")
  | _ => outside
  end.

Definition __init__ (cls : nat) (full_cmd stdout stderr : pyval) : M pyexc :=
  tstdout ← preview "stdout" stdout;
  tstderr ← preview "stderr" stderr;
  ran ← of_option (PyVal.repr full_cmd);
  let nl := PyString.char PyString.newline in
  ret (ReturnCodeError cls full_cmd stdout stderr
          (nl +:+ nl +:+ "  RAN: " +:+ ran +:+ nl +:+ nl +:+ "  STDOUT:" +:+ nl
             +:+ tstdout +:+ nl +:+ nl +:+ "  STDERR:" +:+ nl +:+ tstderr)).

(** Calling a class derived from [ErrorReturnCode]: the inherited
    constructor takes exactly three arguments besides [self]. *)
Definition call (cls : nat) (args : list pyval) : M pyexc :=
  match args with
  | [full_cmd; stdout; stderr] => __init__ cls full_cmd stdout stderr
  | _ =>
      raise Cls.TypeError
        ("__init__() takes exactly 4 arguments ("
           +:+ PyString.of_Z (Z.of_nat (S (length args))) +:+ " given)")
  end.

End ErrorReturnCode.

(** [type(name, bases, {})]: a new class object *)
Definition type_ (name : string) (bases : list nat) : M nat :=
  fun st =>
    (Ok (length (classes st)),
     set_classes (classes st ++ [{| cls_name := name; cls_bases := bases |}]) st).

Definition get_rc_exc (rc : Z) : M nat :=
  cache ← gets rc_exc_cache;
  match cache !! KInt rc with
  | Some exc => ret exc
  | None =>
      let name := "ErrorReturnCode_" +:+ PyString.of_Z rc in
      exc ← type_ name [Cls.ErrorReturnCode];
      modify (fun st => set_rc_exc_cache (<[KStr name := exc]> (rc_exc_cache st)) st);;
      ret exc
  end.

(** ** Child processes *)

Module Popen.

Definition self_ (pid : nat) : M popen_obj :=
  ps ← gets processes; of_option (ps !! pid).

Definition set_returncode (rc : Z) (p : popen_obj) : popen_obj :=
  {| p_args := p_args p; p_stdin := p_stdin p; p_stdout := p_stdout p;
     p_stderr := p_stderr p; returncode := Some rc |}.

(** [subp.Popen(cmd, shell=False, env=os.environ, stdin=.., stdout=.., stderr=..)] *)
Definition __init__ (cmd : list string) (stdin stdout stderr : wiring) : M nat :=
  fun st =>
    (Ok (length (processes st)),
     set_processes (processes st ++
       [{| p_args := cmd; p_stdin := stdin; p_stdout := stdout;
           p_stderr := stderr; returncode := None |}]) st).

Definition captured (wr : wiring) (text : string) : pyval :=
  match wr with PIPE => VStr text | _ => VNone end.

(** [communicate(input)]: feeds the input, reads both pipes to the end and
    reaps the process. *)
Definition communicate (w : world) (pid : nat) (input : option string) : M (pyval * pyval) :=
  p ← self_ pid;
  match returncode p with
  | Some _ => raise Cls.ValueError "I/O operation on closed file"
  | None =>
      let r := os_run w pid (p_args p) input in
      modify (fun st => set_processes (alter (set_returncode (exit_code r)) pid (processes st)) st);;
      ret (captured (p_stdout p) (out_text r), captured (p_stderr p) (err_text r))
  end.

Definition wait (w : world) (pid : nat) : M Z :=
  p ← self_ pid;
  match returncode p with
  | Some rc => ret rc
  | None =>
      let r := os_run w pid (p_args p) None in
      modify (fun st => set_processes (alter (set_returncode (exit_code r)) pid (processes st)) st);;
      ret (exit_code r)
  end.

End Popen.

(** ** [RunningCommand] *)

Module RunningCommand.

Definition self_ (h : nat) : M running_obj :=
  rs ← gets invocations; of_option (rs !! h).

Definition update (h : nat) (f : running_obj -> running_obj) : M unit :=
  modify (fun st => set_invocations (alter f h (invocations st)) st).

Definition set_streams (out err : pyval) (r : running_obj) : running_obj :=
  {| command_ran := command_ran r; process := process r; _stdout := out; _stderr := err;
     _stdout_thread := _stdout_thread r; _stderr_thread := _stderr_thread r;
     call_args := call_args r; is_collecting_streams := is_collecting_streams r |}.

Definition set_threads (tout terr : option thread_obj) (r : running_obj) : running_obj :=
  {| command_ran := command_ran r; process := process r;
     _stdout := _stdout r; _stderr := _stderr r;
     _stdout_thread := tout; _stderr_thread := terr;
     call_args := call_args r; is_collecting_streams := is_collecting_streams r |}.

(** [self.call_args] *)
Definition call_args_of (r : running_obj) : gmap string pyval := call_args r.

(** the [done] property *)
Definition done (h : nat) : M bool :=
  self ← self_ h;
  match process self with
  | None => raise Cls.AttributeError "'NoneType' object has no attribute 'returncode'"
  | Some pid =>
      p ← Popen.self_ pid;
      ret (match returncode p with Some _ => true | None => false end)
  end.

(** ["".join(v)] *)
Definition join_empty (v : pyval) : M string :=
  match v with
  | VStr s => ret s
  | VList items | VTuple items =>
      parts ← mapM_ (fun x => match x with
                              | VStr s => ret s
                              | _ => raise Cls.TypeError "sequence item: expected string"
                              end) items;
      ret (PyString.join "" parts)
  | _ => raise Cls.TypeError "can only join an iterable"
  end.

(** the [stdout] and [stderr] properties, over the [wait] they call *)
Definition stream_property (waiter : nat -> M nat) (field : running_obj -> pyval)
    (h : nat) : M string :=
  self ← self_ h;
  bg ← bind (getitem (call_args self) "bg") truthy;
  when_ bg (waiter h);;
  self ← self_ h;
  join_empty (field self).

(** [wait].  The method and the two properties call each other; [depth]
    bounds the nesting of property reads inside [wait] (the nested [wait]
    finds the process done and returns). *)
Fixpoint wait_rec (depth : nat) (w : world) (h : nat) : M nat :=
  d ← done h;
  if d then ret h
  else
    self ← self_ h;
    if is_collecting_streams self then
      outside   (* joins the two collector threads *)
    else
      pid ← of_option (process self);
      '(out, err) ← Popen.communicate w pid None;
      update h (set_streams out err);;
      rc ← Popen.wait w pid;
      if (rc >? 0)%Z then
        exc ← get_rc_exc rc;
        match depth with
        | O => outside
        | S k =>
            so ← stream_property (wait_rec k w) _stdout h;
            se ← stream_property (wait_rec k w) _stderr h;
            e ← ErrorReturnCode.call exc [VStr so; VStr se];
            throw e
        end
      else ret h.

Definition wait (w : world) (h : nat) : M nat := wait_rec 1 w h.
Definition stdout (w : world) (h : nat) : M string := stream_property (wait w) _stdout h.
Definition stderr (w : world) (h : nat) : M string := stream_property (wait w) _stderr h.

(** [None] is Python's [None], returned when the method falls off its end *)
Definition __unicode__ (w : world) (h : nat) : M (option string) :=
  self ← self_ h;
  match process self with
  | Some _ =>
      so ← stdout w h;
      if negb (String.eqb so "") then
        so ← stdout w h;
        if utf8_valid w so then ret (Some so)
        else raise Cls.UnicodeDecodeError "'utf8' codec can't decode"
      else ret (Some "")
  | None => ret None
  end.

(** [unicode(self).encode("utf-8")] *)
Definition __str__ (w : world) (h : nat) : M string :=
  u ← __unicode__ w h;
  match u with
  | Some text => ret text
  | None => raise Cls.TypeError "coercing to Unicode: need string or buffer, NoneType found"
  end.

Definition __init__ (w : world) (command_ran : string) (process : option nat)
    (call_args : gmap string pyval) (stdin : option string)
    (stdout_callback stderr_callback : pyval) : M nat :=
  has_out ← truthy stdout_callback;
  collecting ← truthy (if has_out then stdout_callback else stderr_callback);
  h ← gets (fun st => length (invocations st));
  modify (fun st => set_invocations (invocations st ++
    [{| command_ran := command_ran; process := process;
        _stdout := VList []; _stderr := VList [];
        _stdout_thread := None; _stderr_thread := None;
        call_args := call_args; is_collecting_streams := collecting |}]) st);;
  start ← (if collecting then
             fg ← bind (getitem call_args "fg") truthy;
             if fg then ret false
             else
               wth ← bind (getitem call_args "with") truthy;
               if wth then ret false
               else d ← done h; ret (negb d)
           else ret false);
  if start then
    (* the two collector threads; the stdin flusher thread is left out *)
    bufsize ← getitem call_args "bufsize";
    update h (set_threads
                (Some {| t_fn := stdout_callback; t_bufsize := bufsize |})
                (Some {| t_fn := stderr_callback; t_bufsize := bufsize |}));;
    ret h
  else
    (* background: return and evaluate lazily; with context: nothing runs *)
    bg ← bind (getitem call_args "bg") truthy;
    if bg then ret h
    else
      wth ← bind (getitem call_args "with") truthy;
      if wth then ret h
      else
        (* run and block *)
        pid ← match process with
              | Some pid => ret pid
              | None => raise Cls.AttributeError "'NoneType' object has no attribute 'communicate'"
              end;
        '(out, err) ← Popen.communicate w pid stdin;
        has ← truthy out;
        let out := if has then out else VStr "" in
        has ← truthy err;
        let err := if has then err else VStr "" in
        update h (set_streams (VList [out]) (VList [err]));;
        rc ← Popen.wait w pid;
        if (rc >? 0)%Z then
          exc ← get_rc_exc rc;
          so ← stdout w h;
          se ← stderr w h;
          e ← ErrorReturnCode.call exc [VStr command_ran; VStr so; VStr se];
          throw e
        else ret h.

Definition __enter__ (h : nat) : M unit := ret tt.

Definition __exit__ (h : nat) : M unit :=
  self ← self_ h;
  wth ← bind (getitem (call_args self) "with") truthy;
  stack ← gets _prepend_stack;
  if wth && match stack with [] => false | _ => true end
  then modify (set_prepend_stack (removelast stack))
  else ret tt.


(** [str(other)] for the argument of a comparison *)
Definition str_of (w : world) (other : pyval) : M string :=
  match other with
  | VRunning h => __str__ w h
  | _ => of_option (PyVal.str other)
  end.

Definition __eq__ (w : world) (h : nat) (other : pyval) : M bool :=
  mine ← __str__ w h;
  theirs ← str_of w other;
  ret (String.eqb mine theirs).

(** [item in str(self)]; only a string can be searched for in a string *)
Definition __contains__ (w : world) (h : nat) (item : pyval) : M bool :=
  text ← __str__ w h;
  match item with
  | VStr s => ret (match String.index 0 s text with Some _ => true | None => false end)
  | _ => raise Cls.TypeError "'in <string>' requires string as left operand"
  end.

Definition __len__ (w : world) (h : nat) : M nat :=
  text ← __str__ w h; ret (String.length text).

(** What [__getattr__] returns: a method of the [Popen] object, or the
    attribute of the rendered stdout. *)
Inductive delegated :=
| OfProcess (pid : nat) (name : string)
| OfText (text : string) (name : string).

Definition __getattr__ (w : world) (h : nat) (p : string) : M delegated :=
  if existsb (String.eqb p) ["send_signal"; "terminate"; "kill"] then
    self ← self_ h;
    match process self with
    | Some pid => ret (OfProcess pid p)
    | None => raise Cls.AttributeError ""
    end
  else
    text ← __str__ w h; ret (OfText text p).

End RunningCommand.

(** ** Program resolution *)

(** What the host contributes to name resolution: which paths exist and are
    executable ([os.path.exists(p) and os.access(p, os.X_OK)]), the process
    environment [os.environ], and which names [__builtins__] has. *)
Record host := {
  is_exe : string -> bool;
  environ : gmap string string;
  has_builtin : string -> bool
}.

Module posixpath.

(** [(p[:i], p[i:])] for [i = p.rfind('/') + 1] *)
Fixpoint cut (p : string) : string * string :=
  match p with
  | EmptyString => (EmptyString, EmptyString)
  | String c r =>
      let '(h, t) := cut r in
      if String.eqb h "" then
        if Ascii.eqb c "/" then (String c EmptyString, t) else (EmptyString, String c t)
      else (String c h, t)
  end.

(** [s.rstrip(c)] *)
Fixpoint rstrip (c : ascii) (s : string) : string :=
  match s with
  | EmptyString => EmptyString
  | String d r =>
      let r' := rstrip c r in
      if String.eqb r' "" && Ascii.eqb d c then EmptyString else String d r'
  end.

(** [head == '/' * len(head)] *)
Fixpoint all_slashes (s : string) : bool :=
  match s with
  | EmptyString => true
  | String c r => Ascii.eqb c "/" && all_slashes r
  end.

(** [os.path.split(p)] *)
Definition split (p : string) : string * string :=
  let '(head, tail) := cut p in
  if negb (String.eqb head "") && negb (all_slashes head)
  then (rstrip "/" head, tail)
  else (head, tail).

Fixpoint endswith (c : ascii) (s : string) : bool :=
  match s with
  | EmptyString => false
  | String d EmptyString => Ascii.eqb c d
  | String _ r => endswith c r
  end.

(** [os.path.join(a, b)] *)
Definition join (a b : string) : string :=
  if String.prefix "/" b then b
  else if String.eqb a "" || endswith "/" a then a +:+ b
  else a +:+ "/" +:+ b.

End posixpath.

(** [s.split(sep)] for a one-character separator *)
Fixpoint split_on (sep : ascii) (s : string) : list string :=
  match s with
  | EmptyString => [EmptyString]
  | String c r =>
      if Ascii.eqb c sep then EmptyString :: split_on sep r
      else
        match split_on sep r with
        | x :: xs => String c x :: xs
        | [] => [String c EmptyString]
        end
  end.

(** [which(program)]: [Ok None] is Python's [None]; [Raise] is the
    [KeyError] of [os.environ["PATH"]]. *)
Definition which (hs : host) (program : string) : outcome (option string) :=
  let '(fpath, fname) := posixpath.split program in
  if negb (String.eqb fpath "") then
    if is_exe hs program then Ok (Some program) else Ok None
  else
    match environ hs !! "PATH" with
    | None => Raise (Builtin Cls.KeyError "PATH")
    | Some path_var =>
        Ok (List.find (is_exe hs)
              (map (fun path => posixpath.join path program) (split_on ":" path_var)))
    end.

(** [not path] for the result of [which] *)
Definition not_path (path : option string) : bool :=
  match path with
  | None => true
  | Some p => String.eqb p ""
  end.

Definition resolve_program (hs : host) (program : string) : outcome (option string) :=
  match which hs program with
  | Ok path =>
      if not_path path then
        if PyString.contains "_" program then
          match which hs (PyString.replace "_" "-" program) with
          | Ok path => if not_path path then Ok None else Ok path
          | other => other
          end
        else Ok None
      else Ok path
  | other => other
  end.

(** ** [Command] *)

(** Keyword arguments: the dict [kwargs], as the list of its items in the
    order the dict iterates them.  Keys are unique. *)
Definition kwargs_t : Type := list (string * pyval).

Fixpoint kw_lookup (k : string) (kw : kwargs_t) : option pyval :=
  match kw with
  | [] => None
  | (k', v) :: r => if String.eqb k k' then Some v else kw_lookup k r
  end.

Fixpoint kw_del (k : string) (kw : kwargs_t) : kwargs_t :=
  match kw with
  | [] => []
  | (k', v) :: r => if String.eqb k k' then kw_del k r else (k', v) :: kw_del k r
  end.

Module Command.

(** the class attribute [call_args] *)
Definition call_args : list (string * pyval) :=
  [ ("fg", VBool false); ("bg", VBool false); ("with", VBool false);
    ("out", VNone); ("err", VNone); ("err_to_out", VNone); ("bufsize", VInt 1) ].

Definition self_ (c : nat) : M command_obj :=
  cs ← gets commands; of_option (cs !! c).

Definition update (c : nat) (f : command_obj -> command_obj) : M unit :=
  modify (fun st => set_commands (alter f c (commands st)) st).

Definition set_partial (v : bool) (c : command_obj) : command_obj :=
  {| _path := _path c; _partial := v; _partial_baked_args := _partial_baked_args c;
     _partial_call_args := _partial_call_args c |}.
Definition set_partial_baked_args (v : list string) (c : command_obj) : command_obj :=
  {| _path := _path c; _partial := _partial c; _partial_baked_args := v;
     _partial_call_args := _partial_call_args c |}.
Definition set_partial_call_args (v : gmap string pyval) (c : command_obj) : command_obj :=
  {| _path := _path c; _partial := _partial c;
     _partial_baked_args := _partial_baked_args c; _partial_call_args := v |}.

(** [Command(path)] *)
Definition __init__ (path : string) : M nat :=
  fun st =>
    (Ok (length (commands st)),
     set_commands (commands st ++
       [{| _path := path; _partial := false; _partial_baked_args := [];
           _partial_call_args := ∅ |}]) st).

Definition _extract_call_args (kwargs : kwargs_t) (to_override : gmap string pyval)
    : gmap string pyval * kwargs_t :=
  foldl (fun '(call_args, kwargs) parg =>
           let key := "_" +:+ parg in
           match kw_lookup key kwargs with
           | Some v => (<[parg := v]> call_args, kw_del key kwargs)
           | None =>
               match to_override !! parg with
               | Some v => (<[parg := v]> call_args, kwargs)
               | None => (call_args, kwargs)
               end
           end)
        (list_to_map call_args, kwargs) (map fst call_args).

(** [str(v)] and [repr(v)]; an invocation handle renders its stdout (its
    [__repr__] is [str(self)]). *)
Definition py_str (w : world) (v : pyval) : M string :=
  match v with
  | VRunning h => RunningCommand.__str__ w h
  | _ => of_option (PyVal.str v)
  end.
Definition py_repr (w : world) (v : pyval) : M string :=
  match v with
  | VRunning h => RunningCommand.__str__ w h
  | _ => of_option (PyVal.repr v)
  end.

(** the token of one keyword argument *)
Definition compile_kwarg (w : world) (kv : string * pyval) : M string :=
  let '(k, v) := kv in
  if Nat.eqb (String.length k) 1 then
    if PyVal.is_True v then ret ("-" +:+ k)
    else r ← py_repr w v; ret ("-" +:+ k +:+ " " +:+ r)
  else
    let k := PyString.replace "_" "-" k in
    if PyVal.is_True v then ret ("--" +:+ k)
    else r ← py_repr w v; ret ("--" +:+ k +:+ "=" +:+ r).

(** the tokens of one positional argument *)
Definition compile_arg (w : world) (arg : pyval) : M (list string) :=
  match arg with
  | VList items | VTuple items => mapM_ (py_str w) items
  | _ => s ← py_str w arg; ret [s]
  end.

Definition _compile_args (w : world) (args : list pyval) (kwargs : kwargs_t)
    : M (list string) :=
  positional ← mapM_ (compile_arg w) args;
  named ← mapM_ (compile_kwarg w) kwargs;
  let processed_args := concat positional ++ named in
  match shlex.split (PyString.join " " processed_args) with
  | Some processed_args => ret processed_args
  | None => raise Cls.ValueError "No closing quotation"
  end.

(** What [__getattribute__] returns: the attribute of the ordinary lookup
    (or its [AttributeError]), or a [BakedCommand] binding the name as the
    first argument of the command. *)
Inductive attribute :=
| Ordinary (name : string)
| BakedCommand (cmd : nat) (attr : string).

(** the names without a leading underscore that a [Command] object has *)
Definition public_names : list string := ["call_args"; "bake"].

Definition __getattribute__ (self : nat) (name : string) : M attribute :=
  if String.prefix "_" name then ret (Ordinary name)
  else if existsb (String.eqb name) public_names then
    me ← self_ self;
    if _partial me then ret (BakedCommand self name) else ret (Ordinary name)
  else ret (BakedCommand self name).

Definition bake (w : world) (self : nat) (args : list pyval) (kwargs : kwargs_t) : M nat :=
  me ← self_ self;
  fn ← __init__ (_path me);
  update fn (set_partial true);;
  let '(call_args, kwargs) := _extract_call_args kwargs ∅ in
  update fn (set_partial_call_args call_args);;
  processed_args ← _compile_args w args kwargs;
  update fn (set_partial_baked_args processed_args);;
  ret fn.

Definition __enter__ (self : nat) : M unit :=
  me ← self_ self;
  modify (fun st => set_prepend_stack (_prepend_stack st ++ [[_path me]]) st).

Definition __exit__ (self : nat) : M unit :=
  stack ← gets _prepend_stack;
  match stack with
  | [] => raise Cls.IndexError "pop from empty list"
  | _ => modify (set_prepend_stack (removelast stack))
  end.

(** the wiring of one output stream from [call_args["out"]] or
    [call_args["err"]]: the callback, if any, and the descriptor *)
Definition redirect (w : world) (pipe : wiring) (sink : pyval) : M (pyval * wiring) :=
  t ← truthy sink;
  if t then
    match sink with
    | VFunction _ _ => ret (sink, pipe)
    | VFile _ => ret (VNone, TO_FILE sink)
    | _ => path ← py_str w sink; ret (VNone, OPENED path)
    end
  else ret (VNone, pipe).

Definition __call__ (w : world) (self : nat) (args : list pyval) (kwargs : kwargs_t)
    : M nat :=
  me ← self_ self;
  (* aggregate any with contexts, then the path *)
  stack ← gets _prepend_stack;
  let cmd := concat stack ++ [_path me] in
  (* the special kwargs, over those of the possibly baked command *)
  let '(call_args, kwargs) := _extract_call_args kwargs (_partial_call_args me) in
  fg ← bind (getitem call_args "fg") truthy;
  let pipe := if fg then INHERIT else PIPE in
  (* piping via composition: a first argument that is an invocation *)
  '(call_args, stdin, actual_stdin, args) ←
    match args with
    | VRunning first_arg :: rest =>
        first ← RunningCommand.self_ first_arg;
        bg ← bind (getitem (RunningCommand.call_args_of first) "bg") truthy;
        if bg then
          match process first with
          | Some producer =>
              ret (<["bg" := VBool true]> call_args, FROM producer, None, rest)
          | None => raise Cls.AttributeError "'NoneType' object has no attribute 'stdout'"
          end
        else
          text ← RunningCommand.stdout w first_arg;
          ret (call_args, pipe, Some text, rest)
    | _ => ret (call_args, pipe, None, args)
    end;
  processed_args ← _compile_args w args kwargs;
  let split_args := _partial_baked_args me ++ processed_args in
  let final_args := split_args in
  let cmd := cmd ++ final_args in
  let command_ran := PyString.join " " cmd in
  wth ← bind (getitem call_args "with") truthy;
  if wth then
    (* with contexts do not run: they prepend to every command in the context *)
    modify (fun st => set_prepend_stack (_prepend_stack st ++ [cmd]) st);;
    RunningCommand.__init__ w command_ran None call_args None VNone VNone
  else
    out ← getitem call_args "out";
    '(stdout_callback, stdout) ← redirect w pipe out;
    err ← getitem call_args "err";
    '(stderr_callback, stderr) ← redirect w pipe err;
    err_to_out ← bind (getitem call_args "err_to_out") truthy;
    let stderr := if err_to_out then STDOUT else stderr in
    process ← Popen.__init__ cmd stdin stdout stderr;
    RunningCommand.__init__ w command_ran (Some process) call_args actual_stdin
      stdout_callback stderr_callback.

(** [BakedCommand.__call__]: the command called with the bound name first *)
Definition call_baked (w : world) (cmd : nat) (attr : string) (args : list pyval)
    (kwargs : kwargs_t) : M nat :=
  __call__ w cmd (VStr attr :: args) kwargs.


Definition _create (hs : host) (program : string) : M nat :=
  match resolve_program hs program with
  | Ok path =>
      if not_path path then raise Cls.CommandNotFound program
      else match path with
           | Some path => __init__ path
           | None => raise Cls.CommandNotFound program
           end
  | Raise e => throw e
  | Outside => outside
  end.

Definition __unicode__ (self : nat) : M string :=
  me ← self_ self;
  let baked_args := PyString.join " " (_partial_baked_args me) in
  let baked_args := if negb (String.eqb baked_args "") then " " +:+ baked_args else baked_args in
  ret (_path me +:+ baked_args).

(** [BakedCommand.__unicode__]: ["%s %s" % (self._cmd, self._attr)] *)
Definition unicode_baked (cmd : nat) (attr : string) : M string :=
  text ← __unicode__ cmd; ret (text +:+ " " +:+ attr).

End Command.

(** ** [Environment] *)

Module Environment.

(** what a name resolves to *)
Inductive resolved :=
| AClass (c : nat)            (* an ErrorReturnCode_N class *)
| ANone                       (* None *)
| ABuiltin (name : string)    (* getattr(self["__builtins__"], name) *)
| AVariable (value : string)  (* os.environ[name] *)
| ACustom (name : string)     (* self.b_cd, self.b_which *)
| ACommand (c : nat)
| AnImportError.              (* raise ImportError(...) *)

Definition is_digit (c : ascii) : bool :=
  let n := N_of_ascii c in (48 <=? n)%N && (n <=? 57)%N.

(** the longest run of digits at the start of [s] *)
Fixpoint digits (s : string) : string :=
  match s with
  | EmptyString => EmptyString
  | String c r => if is_digit c then String c (digits r) else EmptyString
  end.

Fixpoint strip_prefix (p s : string) : option string :=
  match p, s with
  | EmptyString, _ => Some s
  | String a p', String b s' => if Ascii.eqb a b then strip_prefix p' s' else None
  | String _ _, EmptyString => None
  end.

(** [int(m.group(1))] for [m = rc_exc_regex.match(k)], the pattern being
    [ErrorReturnCode_(\d+)] *)
Definition rc_exc_regex (k : string) : option Z :=
  match strip_prefix "ErrorReturnCode_" k with
  | Some rest =>
      match NilZero.uint_of_string (digits rest) with
      | Some d => Some (Z.of_uint d)
      | None => None
      end
  | None => None
  end.

(** the custom builtins [b_cd] and [b_which] *)
Definition custom (k : string) : bool := existsb (String.eqb k) ["cd"; "which"].

(** the lookups after the Python ones: environment, custom builtin, program *)
Definition external (hs : host) (k : string) : M resolved :=
  match environ hs !! k with
  | Some v => ret (AVariable v)
  | None =>
      if custom k then ret (ACustom ("b_" +:+ k))
      else c ← Command._create hs k; ret (ACommand c)
  end.

Definition __missing__ (hs : host) (k : string) : M resolved :=
  if String.eqb k "__all__" then ret AnImportError
  else if negb (posixpath.endswith "_" k) then
    cache ← gets rc_exc_cache;
    match cache !! KStr k with
    | Some exc => ret (AClass exc)
    | None =>
        match rc_exc_regex k with
        | Some rc => exc ← get_rc_exc rc; ret (AClass exc)
        | None =>
            if String.prefix "ARG" k then ret ANone
            else if has_builtin hs k then ret (ABuiltin k)
            else external hs k
        end
    end
  else if negb (String.prefix "_" k) then external hs (posixpath.rstrip "_" k)
  else external hs k.

End Environment.

(** ** The collector threads

    [_collect_stream] runs in two threads, one per output stream.  A thread
    is a small program counter over the method body; the threads and the
    thread that started them interleave, one step at a time. *)

Module Collector.

(** where a thread is in [_collect_stream] *)
Inductive pc :=
| AtBarrier    (* self._start_collecting.wait() *)
| Draining     (* the read loop *)
| InFinally    (* the loop is left; is_last_thread() not yet called *)
| Returning    (* the finally clause is done; the thread is still running *)
| Stopped.     (* the thread has ended: is_alive() is False *)

(** A callback is a Python function called as [fn(line, *args)]: it returns
    a value, of which the loop takes the truth as the stop signal, or it
    raises (also when it cannot be called with the arguments the loop
    passes): [None]. *)
Definition callback : Type := string -> option bool.

Record thread := {
  at_ : pc;
  stream : string;                 (* what the pipe will still deliver *)
  fn : option callback;            (* the callback, None when there is none *)
  call_fn : bool;
  bufsize : Z;
  agg_to : list string
}.

Record system := {
  _start_collecting : bool;
  stdout_thread : thread;
  stderr_thread : thread;
  exit_status : Z;         (* what self.process.wait() returns *)
  exit_checks : nat;       (* calls of self.process.wait() made by collectors *)
  failures : list Z        (* classified failures raised, by exit code *)
}.

Inductive who := Main | Out | Err.

(** [stream.readline()] *)
Fixpoint readline (s : string) : string * string :=
  match s with
  | EmptyString => (EmptyString, EmptyString)
  | String c r =>
      if Ascii.eqb c PyString.newline then (PyString.char c, r)
      else let '(l, r') := readline r in (String c l, r')
  end.

(** [stream.read(n)]; a negative [n] reads to the end *)
Definition read (n : Z) (s : string) : string * string :=
  if (n <? 0)%Z then (s, EmptyString)
  else (String.substring 0 (Z.to_nat n) s,
        String.substring (Z.to_nat n) (String.length s - Z.to_nat n) s).

Definition is_alive (t : thread) : bool :=
  match at_ t with Stopped => false | _ => true end.

Definition is_last_thread (s : system) : bool :=
  negb (is_alive (stdout_thread s)) || negb (is_alive (stderr_thread s)).

Definition move (p : pc) (t : thread) : thread :=
  {| at_ := p; stream := stream t; fn := fn t; call_fn := call_fn t;
     bufsize := bufsize t; agg_to := agg_to t |}.

(** One turn of the read loop: the unit read is appended, then the callback
    is called while [call_fn] holds.  A callback that raises ends the loop:
    the exception leaves it through the finally clause, with the rest of
    the stream unread. *)
Definition drain (t : thread) : thread :=
  let '(unit, rest) :=
    if (bufsize t =? 1)%Z then readline (stream t)
    else read (if (bufsize t =? 0)%Z then 1%Z else bufsize t) (stream t) in
  if String.eqb unit "" then move InFinally t
  else
    let appended (p : pc) (call : bool) :=
      {| at_ := p; stream := rest; fn := fn t; call_fn := call;
         bufsize := bufsize t; agg_to := agg_to t ++ [unit] |} in
    match fn t with
    | Some f =>
        if call_fn t then
          match f unit with
          | Some stop => appended Draining (negb stop)
          | None => appended InFinally true
          end
        else appended Draining false
    | None => appended Draining (call_fn t)
    end.

Definition with_thread (side : who) (t : thread) (s : system) : system :=
  match side with
  | Err =>
      {| _start_collecting := _start_collecting s; stdout_thread := stdout_thread s;
         stderr_thread := t; exit_status := exit_status s;
         exit_checks := exit_checks s; failures := failures s |}
  | _ =>
      {| _start_collecting := _start_collecting s; stdout_thread := t;
         stderr_thread := stderr_thread s; exit_status := exit_status s;
         exit_checks := exit_checks s; failures := failures s |}
  end.

Definition thread_of (side : who) (s : system) : thread :=
  match side with Err => stderr_thread s | _ => stdout_thread s end.

(** the finally clause of the thread [side] *)
Definition finally (side : who) (s : system) : system :=
  let t := move Returning (thread_of side s) in
  if is_last_thread s then
    let rc := exit_status s in
    with_thread side t
      {| _start_collecting := _start_collecting s; stdout_thread := stdout_thread s;
         stderr_thread := stderr_thread s; exit_status := exit_status s;
         exit_checks := S (exit_checks s);
         failures := if (rc >? 0)%Z then failures s ++ [rc] else failures s |}
  else with_thread side t s.

(** One step of the thread [side]; [None] when it cannot move. *)
Definition step (side : who) (s : system) : option system :=
  match side with
  | Main =>
      if _start_collecting s then None
      else Some {| _start_collecting := true; stdout_thread := stdout_thread s;
                   stderr_thread := stderr_thread s; exit_status := exit_status s;
                   exit_checks := exit_checks s; failures := failures s |}
  | _ =>
      let t := thread_of side s in
      match at_ t with
      | AtBarrier =>
          if _start_collecting s
          then Some (with_thread side
                       {| at_ := Draining; stream := stream t; fn := fn t;
                          call_fn := match fn t with Some _ => true | None => false end;
                          bufsize := bufsize t; agg_to := agg_to t |} s)
          else None
      | Draining => Some (with_thread side (drain t) s)
      | InFinally => Some (finally side s)
      | Returning => Some (with_thread side (move Stopped t) s)
      | Stopped => None
      end
  end.

(** a schedule: which thread moves next *)
Fixpoint run (schedule : list who) (s : system) : option system :=
  match schedule with
  | [] => Some s
  | side :: rest =>
      match step side s with
      | Some s' => run rest s'
      | None => None
      end
  end.

(** the system when [RunningCommand.__init__] has created both threads *)
Definition spawn (out err : string) (fn_out fn_err : option callback)
    (bufsize : Z) (rc : Z) : system :=
  {| _start_collecting := false;
     stdout_thread := {| at_ := AtBarrier; stream := out; fn := fn_out; call_fn := false;
                         bufsize := bufsize; agg_to := [] |};
     stderr_thread := {| at_ := AtBarrier; stream := err; fn := fn_err; call_fn := false;
                         bufsize := bufsize; agg_to := [] |};
     exit_status := rc; exit_checks := 0; failures := [] |}.

Definition finished (s : system) : bool :=
  negb (is_alive (stdout_thread s)) && negb (is_alive (stderr_thread s)).

End Collector.

(** ** Notions used in the statements *)

(** A character the tokenizer copies: no whitespace, quote or backslash.
    A word is a non-empty string of such characters. *)
Definition plain_char (c : ascii) : bool :=
  negb (shlex.whitespace c) && negb (shlex.quotes c) && negb (shlex.escape c).

Fixpoint plain (s : string) : bool :=
  match s with
  | EmptyString => true
  | String c r => plain_char c && plain r
  end.

Definition word (s : string) : bool := negb (String.eqb s "") && plain s.

(** A world in which every child process writes [out] and [err] and exits
    with status [rc]. *)
Definition exits (out err : string) (rc : Z) : world :=
  {| os_run := fun _ _ _ => {| out_text := out; err_text := err; exit_code := rc |};
     utf8_valid := fun _ => true |}.

(** [get_rc_exc] stores classes in [rc_exc_cache] under their names only:
    no key of the cache is an integer. *)
Definition cache_holds_names (st : interp) : Prop :=
  forall z, rc_exc_cache st !! KInt z = None.

(** the state [get_rc_exc rc] leaves when it creates a class *)
Definition with_new_rc_class (rc : Z) (st : interp) : interp :=
  let name := "ErrorReturnCode_" +:+ PyString.of_Z rc in
  let st1 := set_classes (classes st ++
               [{| cls_name := name; cls_bases := [Cls.ErrorReturnCode] |}]) st in
  set_rc_exc_cache (<[KStr name := length (classes st)]> (rc_exc_cache st1)) st1.

(** [except handler: ...] catches an instance of the class [c] *)
Definition catches (st : interp) (handler c : nat) : bool :=
  Cls.issubclass (length (classes st)) (classes st) c handler.

(** what [RunningCommand.__init__] keeps of a stream wired as [wr] *)
Definition kept (wr : wiring) (text : string) : string :=
  match wr with PIPE => text | _ => "" end.

(** The result [r] of an invocation is a classified failure for the exit
    code [N]: an instance of a class named [ErrorReturnCode_N], derived from
    [ErrorReturnCode], carrying the command line and both streams. *)
Definition classified_failure (N : Z) (cmd out err : string)
    (r : outcome nat * interp) : Prop :=
  exists cls msg,
    fst r = Raise (ReturnCodeError cls (VStr cmd) (VStr out) (VStr err) msg)
    /\ classes (snd r) !! cls
       = Some {| cls_name := "ErrorReturnCode_" +:+ PyString.of_Z N;
                 cls_bases := [Cls.ErrorReturnCode] |}.

(** A blocking invocation: the process [pid] has been spawned and not yet
    reaped, and the call arguments ask neither for background nor for
    with-context mode. *)
Record blocking (st : interp) (pid : nat) (p : popen_obj)
    (ca : gmap string pyval) : Prop := {
  blocking_process : processes st !! pid = Some p;
  blocking_running : returncode p = None;
  blocking_not_bg : exists v, ca !! "bg" = Some v /\ PyVal.truth v = Some false;
  blocking_not_with : exists v, ca !! "with" = Some v /\ PyVal.truth v = Some false
}.

(** The exit classification as the specification words it: code 0 returns,
    every other code raises the failure classified by that code. *)
Definition classifies_every_nonzero (w : world) (st : interp) (cmd : string)
    (pid : nat) (p : popen_obj) (ca : gmap string pyval) (stdin : option string) : Prop :=
  let report := os_run w pid (p_args p) stdin in
  let N := exit_code report in
  let r := RunningCommand.__init__ w cmd (Some pid) ca stdin VNone VNone st in
  (N = 0%Z -> fst r = Ok (length (invocations st)))
  /\ (N <> 0%Z ->
      classified_failure N cmd (kept (p_stdout p) (out_text report))
        (kept (p_stderr p) (err_text report)) r).

(** The same with the guard of the code: only a positive code raises. *)
Definition classifies_positive (w : world) (st : interp) (cmd : string)
    (pid : nat) (p : popen_obj) (ca : gmap string pyval) (stdin : option string) : Prop :=
  let report := os_run w pid (p_args p) stdin in
  let N := exit_code report in
  let r := RunningCommand.__init__ w cmd (Some pid) ca stdin VNone VNone st in
  ((N <= 0)%Z -> fst r = Ok (length (invocations st)))
  /\ ((N > 0)%Z ->
      classified_failure N cmd (kept (p_stdout p) (out_text report))
        (kept (p_stderr p) (err_text report)) r).

(** [except ErrorReturnCode:] around the computation that ended as [r]
    catches what it raised *)
Definition base_handler_catches {A} (r : outcome A * interp) : Prop :=
  exists e, fst r = Raise e /\ isinstance (snd r) e Cls.ErrorReturnCode = true.

(** The base handler as the specification words it: for every nonzero exit
    code the invocation raises a failure that the handler catches. *)
Definition base_catches_every_nonzero (w : world) (st : interp) (cmd : string)
    (pid : nat) (p : popen_obj) (ca : gmap string pyval) (stdin : option string) : Prop :=
  (exit_code (os_run w pid (p_args p) stdin) <> 0)%Z ->
  base_handler_catches
    (RunningCommand.__init__ w cmd (Some pid) ca stdin VNone VNone st).

(** The same with the guard of the code: only a positive code raises. *)
Definition base_catches_positive (w : world) (st : interp) (cmd : string)
    (pid : nat) (p : popen_obj) (ca : gmap string pyval) (stdin : option string) : Prop :=
  (exit_code (os_run w pid (p_args p) stdin) > 0)%Z ->
  base_handler_catches
    (RunningCommand.__init__ w cmd (Some pid) ca stdin VNone VNone st).

(** the state in which a blocking [RunningCommand.__init__] checks the exit
    status: the invocation object is allocated, the process reaped with
    status [rc], and the captured streams stored *)
Definition after_blocking_init (st : interp) (cmd : string) (pid : nat)
    (ca : gmap string pyval) (rc : Z) (out err : string) : interp :=
  let s1 := set_invocations (invocations st ++
              [{| command_ran := cmd; process := Some pid;
                  _stdout := VList []; _stderr := VList [];
                  _stdout_thread := None; _stderr_thread := None;
                  call_args := ca; is_collecting_streams := false |}]) st in
  let s2 := set_processes (alter (Popen.set_returncode rc) pid (processes s1)) s1 in
  set_invocations
    (alter (RunningCommand.set_streams (VList [VStr out]) (VList [VStr err]))
       (length (invocations st)) (invocations s2)) s2.

(** a state with one spawned process, and the default call arguments *)
Definition one_process : interp :=
  snd (Popen.__init__ ["/bin/sleep"; "60"] PIPE PIPE PIPE initial_interp).
Definition sleep_process : popen_obj :=
  {| p_args := ["/bin/sleep"; "60"]; p_stdin := PIPE; p_stdout := PIPE;
     p_stderr := PIPE; returncode := None |}.
Definition default_call_args : gmap string pyval := list_to_map Command.call_args.

(** A background invocation without collectors: the handle [h] refers to
    the process [pid], spawned and not yet reaped. *)
Record background (st : interp) (h : nat) (r : running_obj) (pid : nat)
    (p : popen_obj) : Prop := {
  background_handle : invocations st !! h = Some r;
  background_process : process r = Some pid;
  background_no_collectors : is_collecting_streams r = false;
  background_bg : exists v, call_args r !! "bg" = Some v /\ PyVal.truth v = Some true;
  background_popen : processes st !! pid = Some p;
  background_running : returncode p = None
}.

(** the state after [ls(_bg=True)] and after [sudo(_with=True)] *)
Definition backgrounded (w : world) : interp :=
  snd ((ls ← Command.__init__ "/bin/ls";
        Command.__call__ w ls [] [("_bg", VBool true)]) initial_interp).
Definition placeholder (w : world) : interp :=
  snd ((sudo ← Command.__init__ "/usr/bin/sudo";
        Command.__call__ w sudo [] [("_with", VBool true)]) initial_interp).

(** the command object [bake] creates from words *)
Definition baked_obj (path : string) (args : list string) : command_obj :=
  {| _path := path; _partial := true; _partial_baked_args := args;
     _partial_call_args := default_call_args |}.

(** the argv of a call: prefix stack, path, baked arguments, arguments *)
Definition argv_of (st : interp) (me : command_obj) (ws : list string) : list string :=
  concat (_prepend_stack st) ++ [_path me] ++ _partial_baked_args me ++ ws.

(** the state after [Popen] has spawned [cmd] with all three pipes, and the
    process object it creates *)
Definition spawned (st : interp) (cmd : list string) : interp :=
  snd (Popen.__init__ cmd PIPE PIPE PIPE st).

Definition piped (cmd : list string) : popen_obj :=
  {| p_args := cmd; p_stdin := PIPE; p_stdout := PIPE; p_stderr := PIPE; returncode := None |}.

(** What a call leaves behind: a process spawned with the argv [cmd], the
    prefix stack as it was, and a handle or a classified failure. *)
Definition invoked (st : interp) (cmd : list string) (r : outcome nat * interp) : Prop :=
  (exists p, processes (snd r) !! length (processes st) = Some p /\ p_args p = cmd)
  /\ _prepend_stack (snd r) = _prepend_stack st
  /\ ((exists h, fst r = Ok h)
      \/ (exists cls out err msg,
            fst r = Raise (ReturnCodeError cls (VStr (PyString.join " " cmd))
                             (VStr out) (VStr err) msg))).

(** Baking [self] with [a, b] and calling the result with [c] spawns a
    process whose argv is the prefix stack, the path, then [a, b, c]. *)
Definition bake_call_argv (w : world) (st : interp) (self : nat) (me : command_obj)
    (a b c : string) : Prop :=
  commands st !! self = Some me /\
  exists fn st1,
    Command.bake w self [VStr a; VStr b] [] st = (Ok fn, st1)
    /\ invoked st1 (concat (_prepend_stack st) ++ [_path me; a; b; c])
         (Command.__call__ w fn [VStr c] [] st1).

(** the state after [Command("/bin/ls")] *)
Definition ls_created : interp := snd (Command.__init__ "/bin/ls" initial_interp).
Definition ls_obj : command_obj :=
  {| _path := "/bin/ls"; _partial := false; _partial_baked_args := [];
     _partial_call_args := ∅ |}.

(** ** Notions about the collector threads *)

(** a thread that has executed its finally clause *)
Definition past_finally (t : Collector.thread) : bool :=
  match Collector.at_ t with
  | Collector.Returning | Collector.Stopped => true
  | _ => false
  end.

(** The exit check has not run, or it has run once and both threads are
    past their finally clause. *)
Definition checked_at_most_once (s : Collector.system) : Prop :=
  Collector.exit_checks s = 0
  \/ (Collector.exit_checks s = 1
      /\ past_finally (Collector.stdout_thread s) = true
      /\ past_finally (Collector.stderr_thread s) = true).

(** both collectors reach the finally clause before either ends *)
Definition racing_schedule : list Collector.who :=
  [Collector.Main; Collector.Out; Collector.Err; Collector.Out; Collector.Err;
   Collector.Out; Collector.Err; Collector.Out; Collector.Err].
(** the stdout collector ends before the stderr collector leaves its loop *)
Definition serial_schedule : list Collector.who :=
  [Collector.Main; Collector.Out; Collector.Err; Collector.Out; Collector.Out;
   Collector.Out; Collector.Err; Collector.Err; Collector.Err].

(** the stderr collector ends before the stdout collector leaves its loop *)
Definition serial_schedule_err_first : list Collector.who :=
  [Collector.Main; Collector.Err; Collector.Out; Collector.Err; Collector.Err;
   Collector.Err; Collector.Out; Collector.Out; Collector.Out].

(** ** Frames *)

(** a computation that leaves the command objects and the prefix stack alone *)
Definition quiet {A} (c : M A) : Prop :=
  forall st, commands (snd (c st)) = commands st
             /\ _prepend_stack (snd (c st)) = _prepend_stack st.

(** a computation that leaves the first [n] command objects alone *)
Definition keeps (n : nat) {A} (c : M A) : Prop :=
  forall st, n <= length (commands st) ->
    n <= length (commands (snd (c st)))
    /\ forall i, i < n -> commands (snd (c st)) !! i = commands st !! i.

(** ** Baking *)

(** Baking [self] with the words [ws] and the keywords [kwargs] returns a
    new command that layers them onto the parent's baked arguments and
    overrides, and leaves the parent as it was. *)
Definition bake_layers (w : world) (st : interp) (self : nat) (me : command_obj)
    (ws : list string) (kwargs : kwargs_t) : Prop :=
  commands st !! self = Some me /\
  exists fn st' new,
    Command.bake w self (map VStr ws) kwargs st = (Ok fn, st')
    /\ commands st' !! self = Some me
    /\ commands st' !! fn = Some new
    /\ fn <> self
    /\ _path new = _path me
    /\ _partial_baked_args new = _partial_baked_args me ++ ws
    /\ _partial_call_args new
       = fst (Command._extract_call_args kwargs (_partial_call_args me)).

(** The state in which [bake] compiles its arguments: the new command is
    registered with the path of the parent and the overrides of the call,
    and nothing is baked into it yet. *)
Definition bake_registered (st : interp) (path : string) (overrides : gmap string pyval)
    : interp :=
  set_commands (commands st ++
    [{| _path := path; _partial := true; _partial_baked_args := [];
        _partial_call_args := overrides |}]) st.

(** Baking [self] replaces the layer of the parent: the new command has the
    path of the parent, the compiled arguments of the call as its baked
    arguments and the mode keywords of the call, over the defaults, as its
    overrides; nothing of what the parent has baked is in it.  No command
    that exists is changed, however the call ends. *)
Definition bake_replaces (w : world) (st : interp) (self : nat) (me : command_obj)
    (args : list pyval) (kwargs : kwargs_t) : Prop :=
  let overrides := fst (Command._extract_call_args kwargs ∅) in
  let rest := snd (Command._extract_call_args kwargs ∅) in
  (forall c obj, commands st !! c = Some obj ->
     commands (snd (Command.bake w self args kwargs st)) !! c = Some obj)
  /\ forall processed st2,
       Command._compile_args w args rest (bake_registered st (_path me) overrides)
       = (Ok processed, st2) ->
       exists fn st',
         Command.bake w self args kwargs st = (Ok fn, st')
         /\ fn <> self
         /\ commands st' !! self = Some me
         /\ commands st' !! fn
            = Some {| _path := _path me; _partial := true;
                      _partial_baked_args := processed;
                      _partial_call_args := overrides |}.

(** the state after [long = ls.bake("-l", _bg=True)], and that command *)
Definition long_baked : interp :=
  snd ((ls ← Command.__init__ "/bin/ls";
        Command.bake (exits "" "" 0) ls [VStr "-l"] [("_bg", VBool true)]) initial_interp).
Definition long_obj : command_obj :=
  {| _path := "/bin/ls"; _partial := true; _partial_baked_args := ["-l"];
     _partial_call_args := <["bg" := VBool true]> default_call_args |}.

(** ** Scenarios *)

(** [with sudo(_with=True): with nice(_with=True):] entered, [ls] created *)
Definition nested_with_calls (w : world) : M nat :=
  sudo ← Command.__init__ "/usr/bin/sudo";
  nice ← Command.__init__ "/usr/bin/nice";
  ls ← Command.__init__ "/bin/ls";
  c1 ← Command.__call__ w sudo [] [("_with", VBool true)];
  RunningCommand.__enter__ c1;;
  c2 ← Command.__call__ w nice [] [("_with", VBool true)];
  RunningCommand.__enter__ c2;;
  ret ls.

(** the same, and both contexts left again *)
Definition nested_with_calls_left (w : world) : M nat :=
  sudo ← Command.__init__ "/usr/bin/sudo";
  nice ← Command.__init__ "/usr/bin/nice";
  ls ← Command.__init__ "/bin/ls";
  c1 ← Command.__call__ w sudo [] [("_with", VBool true)];
  RunningCommand.__enter__ c1;;
  c2 ← Command.__call__ w nice [] [("_with", VBool true)];
  RunningCommand.__enter__ c2;;
  RunningCommand.__exit__ c2;;
  RunningCommand.__exit__ c1;;
  ret ls.

(** [with sudo: with nice:] entered, [ls] created *)
Definition nested_with_commands : M nat :=
  sudo ← Command.__init__ "/usr/bin/sudo";
  nice ← Command.__init__ "/usr/bin/nice";
  ls ← Command.__init__ "/bin/ls";
  Command.__enter__ sudo;;
  Command.__enter__ nice;;
  ret ls.

(** [long = ls.bake("-l", _bg=True)], then [Command.bake(long, "-a")] *)
Definition bake_twice (w : world) : M (nat * nat) :=
  ls ← Command.__init__ "/bin/ls";
  long ← Command.bake w ls [VStr "-l"] [("_bg", VBool true)];
  all ← Command.bake w long [VStr "-a"] [];
  ret (long, all).

(** ** Notions about the execution modes *)


(** one turn of the loop of [_extract_call_args] *)
Definition extract_turn (to_override : gmap string pyval)
    : gmap string pyval * kwargs_t -> string -> gmap string pyval * kwargs_t :=
  fun '(call_args, kwargs) parg =>
    let key := "_" +:+ parg in
    match kw_lookup key kwargs with
    | Some v => (<[parg := v]> call_args, kw_del key kwargs)
    | None =>
        match to_override !! parg with
        | Some v => (<[parg := v]> call_args, kwargs)
        | None => (call_args, kwargs)
        end
    end.

(** a command that overrides no execution mode: created from a path, or
    baked without keyword *)
Definition default_modes (me : command_obj) : Prop :=
  _partial_call_args me = ∅ \/ _partial_call_args me = default_call_args.

(** the call arguments of [cmd(..., _with=True)] *)
Definition with_call_args : gmap string pyval := <["with" := VBool true]> default_call_args.

(** ** Notions about waiting and piping *)

(** the state after [wait] has reaped the process of a background invocation *)
Definition after_wait (w : world) (st : interp) (h pid : nat) (p : popen_obj) : interp :=
  let report := os_run w pid (p_args p) None in
  let s2 := set_processes
              (alter (Popen.set_returncode (exit_code report)) pid (processes st)) st in
  set_invocations
    (alter (RunningCommand.set_streams
              (Popen.captured (p_stdout p) (out_text report))
              (Popen.captured (p_stderr p) (err_text report))) h (invocations s2)) s2.

(** the invocation [first] has run in the foreground and holds [text] as
    its standard output *)
Definition finished_with (st : interp) (first : nat) (text : string) : Prop :=
  exists r,
    invocations st !! first = Some r
    /\ call_args r !! "bg" = Some (VBool false)
    /\ _stdout r = VList [VStr text].

(** the invocation [first] runs in the background as the process [producer] *)
Definition running_as (st : interp) (first producer : nat) : Prop :=
  exists r,
    invocations st !! first = Some r
    /\ call_args r !! "bg" = Some (VBool true)
    /\ process r = Some producer.

(** the names [__getattr__] hands to the process *)
Definition signal_method (p : string) : bool :=
  existsb (String.eqb p) ["send_signal"; "terminate"; "kill"].

(** ** Notions about aggregation *)

(** what a collector has aggregated *)
Definition aggregated (t : Collector.thread) : string :=
  PyString.join "" (Collector.agg_to t).




(** a callback that raises when it is given [bad], and does not ask to stop
    otherwise *)
Definition raises_on (bad : string) : Collector.callback :=
  fun line => if String.eqb line bad then None else Some false.


(** ** Notions about names *)

(** the name of the failure class of the exit status [n] *)
Definition rc_class_name (n : Z) : string := "ErrorReturnCode_" +:+ PyString.of_Z n.

(** every class the cache holds is in the class table *)
Definition cached_classes_exist (st : interp) : Prop :=
  forall k c, rc_exc_cache st !! k = Some c -> c < length (classes st).

(** the command object [Command(path)] creates *)
Definition created_obj (path : string) : command_obj :=
  {| _path := path; _partial := false; _partial_baked_args := [];
     _partial_call_args := ∅ |}.

(** ** More scenarios *)

(** a host with [ls] in [/bin], [apt-get] in [/usr/bin] and the builtin [id] *)
Definition shell_host : host :=
  {| is_exe := fun p => String.eqb p "/bin/ls" || String.eqb p "/usr/bin/apt-get";
     environ := {[ "PATH" := "/usr/local/bin:/usr/bin:/bin" ]};
     has_builtin := fun k => String.eqb k "id" |}.

(** the state after [ls()] has run in the foreground *)
Definition ls_ran (w : world) : interp :=
  snd ((ls ← Command.__init__ "/bin/ls"; Command.__call__ w ls [] []) initial_interp).

(** the state after [ls(_bg=True, _out="log")] *)
Definition backgrounded_to_file (w : world) : interp :=
  snd ((ls ← Command.__init__ "/bin/ls";
        Command.__call__ w ls [] [("_bg", VBool true); ("_out", VStr "log")])
         initial_interp).

(** * Properties *)

(** ** The tokenizer on words *)

Section Tokenizer.
Import PyString.
#[local] Arguments String.append : simpl nomatch.

Lemma append_assoc (a b c : string) : (a +:+ b) +:+ c = a +:+ (b +:+ c).
Proof. induction a as [|x a IH]; simpl; [reflexivity | now f_equal]. Qed.

Lemma append_empty_r (a : string) : a +:+ "" = a.
Proof. induction a as [|x a IH]; simpl; [reflexivity | now f_equal]. Qed.

Lemma snoc_app (a : string) (c : ascii) (b : string) :
  (a +:+ String c "") +:+ b = a +:+ String c b.
Proof. now rewrite append_assoc. Qed.

Lemma plain_char_cases (c : ascii) :
  plain_char c = true ->
  shlex.whitespace c = false /\ shlex.quotes c = false /\ shlex.escape c = false.
Proof.
  unfold plain_char. rewrite !andb_true_iff, !negb_true_iff. tauto.
Qed.

Lemma plain_app (a b : string) : plain a = true -> plain b = true -> plain (a +:+ b) = true.
Proof.
  induction a as [|x a IH]; simpl; [auto |].
  rewrite !andb_true_iff. intros [Hx Ha] Hb. auto.
Qed.

(** Inside a word, plain characters are appended to the token. *)
Lemma read_plain (u : string) :
  plain u = true ->
  forall token quoted done rest,
    shlex.read shlex.InWord token quoted done (u +:+ rest)
    = shlex.read shlex.InWord (token +:+ u) quoted done rest.
Proof.
  induction u as [|c u IH]; intros Hu token quoted done rest.
  - now rewrite append_empty_r.
  - simpl in Hu. apply andb_true_iff in Hu as [Hc Hu].
    destruct (plain_char_cases c Hc) as (Hw & Hq & He).
    simpl. rewrite Hw, Hq, He. rewrite (IH Hu).
    unfold char. now rewrite snoc_app.
Qed.

(** From the space state, a word followed by the end or by a blank is
    returned as one token. *)
Lemma read_word_end (u : string) (done : list string) :
  word u = true ->
  shlex.read shlex.InSpace "" false done u = Some (done ++ [u]).
Proof.
  unfold word. rewrite andb_true_iff, negb_true_iff. intros [Hne Hu].
  destruct u as [|c u]; [discriminate |].
  simpl in Hu. apply andb_true_iff in Hu as [Hc Hu].
  destruct (plain_char_cases c Hc) as (Hw & Hq & He).
  simpl. rewrite Hw, Hq, He.
  rewrite <- (append_empty_r u) at 1. rewrite (read_plain u Hu).
  reflexivity.
Qed.

Lemma read_word_blank (u rest : string) (done : list string) :
  word u = true ->
  shlex.read shlex.InSpace "" false done (u +:+ " " +:+ rest)
  = shlex.read shlex.InSpace "" false (done ++ [u]) rest.
Proof.
  unfold word. rewrite andb_true_iff, negb_true_iff. intros [Hne Hu].
  destruct u as [|c u]; [discriminate |].
  simpl in Hu. apply andb_true_iff in Hu as [Hc Hu].
  destruct (plain_char_cases c Hc) as (Hw & Hq & He).
  simpl. rewrite Hw, Hq, He.
  rewrite (read_plain u Hu). reflexivity.
Qed.

Lemma read_words (ws : list string) :
  forallb word ws = true ->
  forall done, shlex.read shlex.InSpace "" false done (join " " ws) = Some (done ++ ws).
Proof.
  induction ws as [|u ws IH]; intros Hws done.
  - simpl. now rewrite app_nil_r.
  - simpl in Hws. apply andb_true_iff in Hws as [Hu Hws].
    destruct ws as [|v ws].
    + simpl. now apply read_word_end.
    + change (join " " (u :: v :: ws)) with (u +:+ " " +:+ join " " (v :: ws)).
      rewrite (read_word_blank _ _ _ Hu), (IH Hws).
      now rewrite <- app_assoc.
Qed.

(** Words joined by blanks split back into themselves. *)
Lemma split_words (ws : list string) :
  forallb word ws = true -> shlex.split (join " " ws) = Some ws.
Proof. intros H. unfold shlex.split. now rewrite (read_words ws H). Qed.

End Tokenizer.

(** ** Argument compilation *)

Section Compile.
Import PyString.
Variable w : world.

(** Plain strings are compiled without touching the interpreter state. *)
Lemma compile_strings (ws : list string) (st : interp) :
  mapM_ (Command.compile_arg w) (map VStr ws) st = (Ok (map (fun s => [s]) ws), st).
Proof.
  induction ws as [|u ws IH]; [reflexivity |].
  cbn [map mapM_]. unfold bind at 1. cbn. unfold bind at 1. rewrite IH. reflexivity.
Qed.

Lemma concat_singletons (ws : list string) : concat (map (fun s => [s]) ws) = ws.
Proof. induction ws as [|u ws IH]; [reflexivity | cbn; now f_equal]. Qed.

(** Positional words compile to themselves. *)
Lemma compile_words (ws : list string) (st : interp) :
  forallb word ws = true ->
  Command._compile_args w (map VStr ws) [] st = (Ok ws, st).
Proof.
  intros Hws. unfold Command._compile_args.
  unfold bind at 1. rewrite compile_strings. cbn.
  rewrite app_nil_r, concat_singletons, (split_words ws Hws). reflexivity.
Qed.

(** One keyword argument whose token is a word. *)
Lemma compile_flag (k : string) (v : pyval) (tok : string) (st : interp) :
  Command.compile_kwarg w (k, v) st = (Ok tok, st) ->
  word tok = true ->
  Command._compile_args w [] [(k, v)] st = (Ok [tok], st).
Proof.
  intros Hk Htok. unfold Command._compile_args.
  cbn [mapM_]. unfold bind, ret. rewrite Hk. cbn [concat app].
  change (join " " [tok]) with tok.
  assert (shlex.split tok = Some [tok]) as ->; [| reflexivity].
  apply (split_words [tok]). cbn. now rewrite Htok.
Qed.

End Compile.

Lemma plain_replace (k : string) :
  plain k = true -> plain (PyString.replace "_" "-" k) = true.
Proof.
  induction k as [|c k IH]; [reflexivity |].
  cbn [plain PyString.replace]. rewrite !andb_true_iff. intros [Hc Hk].
  split; [| exact (IH Hk)].
  destruct (Ascii.eqb c "_"); [reflexivity | exact Hc].
Qed.

(** X27.  A key of any other length, with value [True], compiles to the
    long flag with its underscores rewritten to hyphens. *)
Lemma compile_long_flag (w : world) (st : interp) (k : string) :
  String.length k <> 1 -> plain k = true ->
  Command._compile_args w [] [(k, VBool true)] st
  = (Ok [String "-" (String "-" (PyString.replace "_" "-" k))], st).
Proof.
  intros Hlen Hk. apply compile_flag.
  - unfold Command.compile_kwarg.
    destruct (Nat.eqb_spec (String.length k) 1) as [E | _]; [contradiction | reflexivity].
  - unfold word. cbn [String.eqb negb andb plain].
    now rewrite (plain_replace k Hk).
Qed.

(** C6.  Flag synthesis: a one-character key [k] with value [True] compiles
    to the single token [-k]; the key [foo_bar] with value [True] compiles to
    [--foo-bar]; the key [foo_bar] with the string value [x] compiles to
    [--foo-bar=x].  A keyword name is a Python identifier; the first part is
    proved for every character the tokenizer copies (neither whitespace,
    quote nor backslash), which includes the identifier characters. *)
Theorem compile_args_flag_synthesis (w : world) (st : interp) (k : ascii) :
  plain_char k = true ->
  Command._compile_args w [] [(String k "", VBool true)] st = (Ok ["-" +:+ String k ""], st)
  /\ Command._compile_args w [] [("foo_bar", VBool true)] st = (Ok ["--foo-bar"], st)
  /\ Command._compile_args w [] [("foo_bar", VStr "x")] st = (Ok ["--foo-bar=x"], st).
Proof.
  intros Hk. split; [| split].
  - apply compile_flag; [reflexivity |].
    unfold word.
    change (plain ("-" +:+ String k "")) with (plain_char "-"%char && (plain_char k && true)).
    rewrite Hk. reflexivity.
  - apply compile_flag; reflexivity.
  - reflexivity.
Qed.

Lemma compile_args_flag_synthesis_witness :
  Command._compile_args (exits "" "" 0) [] [("l", VBool true)] initial_interp
  = (Ok ["-l"], initial_interp).
Proof.
  apply (compile_args_flag_synthesis (exits "" "" 0) initial_interp "l"%char).
  reflexivity.
Defined.

(** ** Failure classes *)

Lemma initial_cache_holds_names : cache_holds_names initial_interp.
Proof. intros z. reflexivity. Qed.

(** With no integer key in the cache, the lookup by [rc] misses and a class
    is created; the cache still holds no integer key afterwards. *)
Lemma get_rc_exc_creates (rc : Z) (st : interp) :
  cache_holds_names st ->
  get_rc_exc rc st = (Ok (length (classes st)), with_new_rc_class rc st)
  /\ cache_holds_names (with_new_rc_class rc st).
Proof.
  intros Hst. split.
  - unfold get_rc_exc, bind, gets. rewrite (Hst rc). reflexivity.
  - intros z. unfold with_new_rc_class. cbn.
    rewrite lookup_insert_ne by discriminate. apply Hst.
Qed.

Lemma new_rc_class_lookup (rc : Z) (st : interp) :
  classes (with_new_rc_class rc st) !! length (classes st)
  = Some {| cls_name := "ErrorReturnCode_" +:+ PyString.of_Z rc;
            cls_bases := [Cls.ErrorReturnCode] |}.
Proof.
  unfold with_new_rc_class. cbn.
  rewrite lookup_app_r by lia. now rewrite Nat.sub_diag.
Qed.

Lemma new_rc_class_length (rc : Z) (st : interp) :
  length (classes (with_new_rc_class rc st)) = S (length (classes st)).
Proof. unfold with_new_rc_class. cbn. rewrite length_app. cbn. lia. Qed.

Lemma issubclass_refl (depth : nat) (tbl : list pyclass) (c : nat) :
  Cls.issubclass depth tbl c c = true.
Proof. destruct depth; cbn; now rewrite Nat.eqb_refl. Qed.

(** The created class derives from [ErrorReturnCode]. *)
Lemma new_rc_class_subclass (rc : Z) (st : interp) :
  catches (with_new_rc_class rc st) Cls.ErrorReturnCode (length (classes st)) = true.
Proof.
  unfold catches. rewrite new_rc_class_length.
  cbn [Cls.issubclass]. rewrite new_rc_class_lookup. cbn [cls_bases existsb].
  rewrite issubclass_refl. now rewrite orb_true_r.
Qed.

(** C2 (the code departs from the claim).  From the state the module starts
    in, two successive lookups [get_rc_exc rc] return two different class
    objects of the same name: the cache is read under the integer [rc] and
    written under the name, so the lookup never hits. *)
Theorem get_rc_exc_twice_distinct (rc : Z) :
  exists c1 c2 st1 st2 k,
    get_rc_exc rc initial_interp = (Ok c1, st1)
    /\ get_rc_exc rc st1 = (Ok c2, st2)
    /\ c1 <> c2
    /\ classes st2 !! c1 = Some k /\ classes st2 !! c2 = Some k
    /\ catches st2 c1 c2 = false.
Proof.
  destruct (get_rc_exc_creates rc initial_interp initial_cache_holds_names) as [E1 H1].
  destruct (get_rc_exc_creates rc _ H1) as [E2 H2].
  eexists _, _, _, _, _. split; [exact E1 |]. split; [exact E2 |].
  rewrite new_rc_class_length. cbn. split; [lia |]. repeat split; reflexivity.
Qed.

(** ** Running the interpreter monad *)

Lemma bind_ok {A B} (c : M A) (k : A -> M B) (st st' : interp) (a : A) :
  c st = (Ok a, st') -> bind c k st = k a st'.
Proof. intros H. unfold bind. now rewrite H. Qed.

Lemma bind_raise {A B} (c : M A) (k : A -> M B) (st st' : interp) (e : pyexc) :
  c st = (Raise e, st') -> bind c k st = (Raise e, st').
Proof. intros H. unfold bind. now rewrite H. Qed.

Lemma getitem_truthy (d : gmap string pyval) (k : string) (v : pyval) (b : bool)
    (st : interp) :
  d !! k = Some v -> PyVal.truth v = Some b ->
  bind (getitem d k) truthy st = (Ok b, st).
Proof.
  intros Hk Hv. unfold bind, getitem. rewrite Hk. cbn. unfold truthy. now rewrite Hv.
Qed.

Ltac run_ok := erewrite bind_ok; [| reflexivity]; cbv beta iota.
Ltac run_by H := erewrite bind_ok; [| apply H; eauto; fail]; cbv beta iota.

(** ** Processes *)

Lemma communicate_reaps (w : world) (pid : nat) (p : popen_obj) (input : option string)
    (st : interp) :
  processes st !! pid = Some p -> returncode p = None ->
  Popen.communicate w pid input st
  = (Ok (Popen.captured (p_stdout p) (out_text (os_run w pid (p_args p) input)),
         Popen.captured (p_stderr p) (err_text (os_run w pid (p_args p) input))),
     set_processes
       (alter (Popen.set_returncode (exit_code (os_run w pid (p_args p) input))) pid
          (processes st)) st).
Proof.
  intros Hp Hrc. unfold Popen.communicate.
  erewrite bind_ok; [| unfold Popen.self_, bind, gets; rewrite Hp; reflexivity].
  rewrite Hrc. reflexivity.
Qed.

Lemma wait_reaped (w : world) (pid : nat) (p : popen_obj) (rc : Z) (st : interp) :
  processes st !! pid = Some p -> returncode p = Some rc ->
  Popen.wait w pid st = (Ok rc, st).
Proof.
  intros Hp Hrc. unfold Popen.wait.
  erewrite bind_ok; [| unfold Popen.self_, bind, gets; rewrite Hp; reflexivity].
  rewrite Hrc. reflexivity.
Qed.

Lemma truthy_captured (wr : wiring) (text : string) (st : interp) :
  exists b, truthy (Popen.captured wr text) st = (Ok b, st)
            /\ (if b then Popen.captured wr text else VStr "") = VStr (kept wr text).
Proof.
  destruct wr; cbn; try (exists false; split; reflexivity).
  destruct text as [|c text]; [exists false | exists true]; split; reflexivity.
Qed.

(** ** Exit classification *)

(** Reading a stream of an invocation that does not run in the background:
    no wait, the aggregated parts joined. *)
Lemma stream_property_foreground (waiter : nat -> M nat) (field : running_obj -> pyval)
    (h : nat) (r : running_obj) (v : pyval) (s : string) (st : interp) :
  invocations st !! h = Some r ->
  call_args r !! "bg" = Some v -> PyVal.truth v = Some false ->
  field r = VList [VStr s] ->
  RunningCommand.stream_property waiter field h st = (Ok s, st).
Proof.
  intros Hr Hbg Tbg Hf. unfold RunningCommand.stream_property.
  assert (Hself : RunningCommand.self_ h st = (Ok r, st))
    by (unfold RunningCommand.self_, bind, gets; rewrite Hr; reflexivity).
  erewrite bind_ok; [| exact Hself]; cbv beta iota.
  erewrite bind_ok; [| eapply getitem_truthy; [exact Hbg | exact Tbg]]; cbv beta iota.
  run_ok.
  erewrite bind_ok; [| exact Hself]; cbv beta iota.
  rewrite Hf. reflexivity.
Qed.

(** Instantiating a failure class with the three arguments of its
    constructor succeeds and stores them. *)
Lemma call_with_three (cls : nat) (cmd out err : string) (st : interp) :
  exists msg,
    ErrorReturnCode.call cls [VStr cmd; VStr out; VStr err] st
    = (Ok (ReturnCodeError cls (VStr cmd) (VStr out) (VStr err) msg), st).
Proof. eexists. reflexivity. Qed.

(** With any other number of arguments it raises [TypeError]. *)
Lemma call_with_two (cls : nat) (a b : pyval) (st : interp) :
  ErrorReturnCode.call cls [a; b] st
  = (Raise (Builtin Cls.TypeError "__init__() takes exactly 4 arguments (3 given)"), st).
Proof. reflexivity. Qed.

(** [get_rc_exc] always returns a class and touches the class table and the
    cache only. *)
Lemma get_rc_exc_total (rc : Z) (st : interp) :
  exists c st', get_rc_exc rc st = (Ok c, st')
    /\ invocations st' = invocations st /\ processes st' = processes st
    /\ _prepend_stack st' = _prepend_stack st /\ commands st' = commands st.
Proof.
  unfold get_rc_exc, bind, gets.
  destruct (rc_exc_cache st !! KInt rc); eexists _, _; repeat split; reflexivity.
Qed.

(** A blocking invocation runs to the exit check: it returns the new handle
    when the status is not positive, and otherwise raises an instance of the
    class [get_rc_exc] gives, with the command line and the streams. *)
Lemma init_blocking (w : world) (st : interp) (cmd : string)
    (pid : nat) (p : popen_obj) (ca : gmap string pyval) (stdin : option string) :
  blocking st pid p ca ->
  let report := os_run w pid (p_args p) stdin in
  let N := exit_code report in
  let out := kept (p_stdout p) (out_text report) in
  let err := kept (p_stderr p) (err_text report) in
  let s3 := after_blocking_init st cmd pid ca N out err in
  let r := RunningCommand.__init__ w cmd (Some pid) ca stdin VNone VNone st in
  ((N <= 0)%Z -> r = (Ok (length (invocations st)), s3))
  /\ ((N > 0)%Z ->
      exists cls s4 msg,
        get_rc_exc N s3 = (Ok cls, s4)
        /\ r = (Raise (ReturnCodeError cls (VStr cmd) (VStr out) (VStr err) msg), s4)).
Proof.
  intros [Hp Hrun (vbg & Hbg & Tbg) (vw & Hw & Tw)].
  intros report N out err s3 r. subst r.
  unfold RunningCommand.__init__.
  do 5 run_ok.
  erewrite bind_ok; [| eapply getitem_truthy; [exact Hbg | exact Tbg]]; cbv beta iota.
  erewrite bind_ok; [| eapply getitem_truthy; [exact Hw | exact Tw]]; cbv beta iota.
  run_ok.
  erewrite bind_ok; [| apply communicate_reaps; eauto]; cbv beta iota.
  fold report. fold N.
  match goal with |- context [ bind (truthy ?x) ?k ?s ] =>
    destruct (truthy_captured (p_stdout p) (out_text report) s) as (bo & Eo & Ko) end.
  erewrite bind_ok; [| exact Eo]; cbv beta iota. rewrite Ko.
  match goal with |- context [ bind (truthy ?x) ?k ?s ] =>
    destruct (truthy_captured (p_stderr p) (err_text report) s) as (be & Ee & Ke) end.
  erewrite bind_ok; [| exact Ee]; cbv beta iota. rewrite Ke.
  clear Eo Ko Ee Ke. fold out. fold err.
  run_ok.
  erewrite bind_ok; [| eapply wait_reaped;
    [cbn; rewrite list_lookup_alter_eq, Hp; reflexivity | reflexivity]]; cbv beta iota.
  change (RunningCommand.update (length (invocations st))
            (RunningCommand.set_streams (VList [VStr out]) (VList [VStr err])) _).2
    with s3.
  destruct (N >? 0)%Z eqn:Hgt.
  - split; [intros Hle; apply Z.gtb_lt in Hgt; lia | intros _].
    destruct (get_rc_exc_total N s3) as (cls & s4 & Ecls & Hinv & _).
    erewrite bind_ok; [| exact Ecls]; cbv beta iota.
    assert (Hh : invocations s4 !! length (invocations st)
                 = Some {| command_ran := cmd; process := Some pid;
                           _stdout := VList [VStr out]; _stderr := VList [VStr err];
                           _stdout_thread := None; _stderr_thread := None;
                           call_args := ca; is_collecting_streams := false |}).
    { rewrite Hinv. subst s3. unfold after_blocking_init. cbn.
      rewrite list_lookup_alter_eq, lookup_app_r, Nat.sub_diag by lia. reflexivity. }
    erewrite bind_ok;
      [| eapply (stream_property_foreground _ _ _ _ _ out);
         [exact Hh | exact Hbg | exact Tbg | reflexivity]]; cbv beta iota.
    erewrite bind_ok;
      [| eapply (stream_property_foreground _ _ _ _ _ err);
         [exact Hh | exact Hbg | exact Tbg | reflexivity]]; cbv beta iota.
    destruct (call_with_three cls cmd out err s4) as [msg Ecall].
    erewrite bind_ok; [| exact Ecall]; cbv beta iota.
    exists cls, s4, msg. split; [exact Ecls | reflexivity].
  - split; [intros _; reflexivity | intros Hpos].
    rewrite Z.gtb_ltb in Hgt. apply Z.ltb_ge in Hgt. lia.
Qed.

(** C1 (amended).  For every invocation that blocks in the constructor (no
    background mode, no with-context, no incremental collectors), with the
    process still running and the cache in a state the module reaches: an
    exit code [N <= 0] returns the handle without raising, and an exit code
    [N > 0] raises an instance of the class [ErrorReturnCode_N], carrying
    the command line and both captured streams. *)
Theorem exit_classification_positive (w : world) (st : interp) (cmd : string)
    (pid : nat) (p : popen_obj) (ca : gmap string pyval) (stdin : option string) :
  blocking st pid p ca ->
  cache_holds_names st ->
  classifies_positive w st cmd pid p ca stdin.
Proof.
  intros Hb Hcache.
  destruct (init_blocking w st cmd pid p ca stdin Hb) as [Hle Hgt].
  split.
  - intros HN. now rewrite (Hle HN).
  - intros HN. destruct (Hgt HN) as (cls & s4 & msg & Ecls & Er).
    match type of Ecls with get_rc_exc ?rc ?s = _ =>
      destruct (get_rc_exc_creates rc s) as [Enew _]; [intros z; apply Hcache |];
      rewrite Enew in Ecls; injection Ecls as <- <-;
      exists (length (classes s)), msg; rewrite Er; split;
        [reflexivity | exact (new_rc_class_lookup rc s)]
    end.
Qed.

Lemma sleep_is_blocking : blocking one_process 0 sleep_process default_call_args.
Proof.
  split; [reflexivity | reflexivity | |];
    exists (VBool false); split; reflexivity.
Defined.

Lemma exit_classification_positive_witness :
  blocking one_process 0 sleep_process default_call_args
  /\ cache_holds_names one_process
  /\ classifies_positive (exits "" "killed" 2) one_process "/bin/sleep 60" 0
       sleep_process default_call_args None.
Proof.
  split; [exact sleep_is_blocking |].
  split; [intros z; reflexivity |].
  apply (exit_classification_positive (exits "" "killed" 2) one_process "/bin/sleep 60" 0
           sleep_process default_call_args None).
  - exact sleep_is_blocking.
  - intros z. reflexivity.
Defined.

(** C1 as the specification words it fails on a process ended by a signal:
    the exit status -9 is not zero, and the invocation returns without
    raising. *)
Lemma exit_classification_counterexample :
  blocking one_process 0 sleep_process default_call_args
  /\ cache_holds_names one_process
  /\ ~ classifies_every_nonzero (exits "" "" (-9)) one_process "/bin/sleep 60" 0
         sleep_process default_call_args None.
Proof.
  split; [exact sleep_is_blocking |].
  split; [intros z; reflexivity |].
  intros [_ H]. destruct H as (cls & msg & E & _); [discriminate |].
  vm_compute in E. discriminate.
Qed.

(** With an incremental collector the constructor starts the two threads
    and returns at once, whatever the exit code will be: the exit check is
    left to the collector threads. *)
Lemma init_collecting_returns (rc : Z) :
  exists st r p,
    (ls ← Command.__init__ "/bin/ls";
     Command.__call__ (exits "" "" rc) ls [] [("_out", VFunction 0 1)]) initial_interp
    = (Ok 0, st)
    /\ invocations st !! 0 = Some r
    /\ _stdout_thread r = Some {| t_fn := VFunction 0 1; t_bufsize := VInt 1 |}
    /\ _stderr_thread r = Some {| t_fn := VNone; t_bufsize := VInt 1 |}
    /\ processes st !! 0 = Some p /\ returncode p = None.
Proof. eexists _, _, _. split; [vm_compute; reflexivity |]. repeat split. Qed.

(** ** Failure classes and the base class *)

(** C10 (amended).  Every class [get_rc_exc] creates derives from
    [ErrorReturnCode]; and when an invocation that blocks in its
    constructor ends with a positive exit code, whatever the code is, the
    exception it raises is an instance of [ErrorReturnCode], so one handler
    for the base class catches it. *)
Theorem failure_classes_derive_from_base (rc : Z) (st : interp) :
  cache_holds_names st ->
  (exists c st',
     get_rc_exc rc st = (Ok c, st')
     /\ catches st' Cls.ErrorReturnCode c = true)
  /\ (forall w cmd pid p ca stdin,
        blocking st pid p ca -> base_catches_positive w st cmd pid p ca stdin).
Proof.
  intros Hcache. split.
  - destruct (get_rc_exc_creates rc st Hcache) as [E _].
    eexists _, _. split; [exact E |]. apply new_rc_class_subclass.
  - intros w cmd pid p ca stdin Hb HN.
    destruct (init_blocking w st cmd pid p ca stdin Hb) as [_ Hgt].
    destruct (Hgt HN) as (cls & s4 & msg & Ecls & Er).
    match type of Ecls with get_rc_exc ?N ?s = _ =>
      destruct (get_rc_exc_creates N s) as [Enew _]; [intros z; apply Hcache |];
      rewrite Enew in Ecls; injection Ecls as <- <-;
      eexists; rewrite Er; split; [reflexivity |]; exact (new_rc_class_subclass N s)
    end.
Qed.

Lemma failure_classes_derive_from_base_witness :
  (exists c st',
     get_rc_exc 127 one_process = (Ok c, st')
     /\ catches st' Cls.ErrorReturnCode c = true)
  /\ base_handler_catches
       (RunningCommand.__init__ (exits "" "not found" 127) "/bin/sleep 60" (Some 0)
          default_call_args None VNone VNone one_process).
Proof.
  destruct (failure_classes_derive_from_base 127 one_process) as [H1 H2].
  - intros z. reflexivity.
  - split; [exact H1 |].
    apply (H2 (exits "" "not found" 127) "/bin/sleep 60" 0 sleep_process
             default_call_args None).
    + exact sleep_is_blocking.
    + cbn. lia.
Defined.

(** C10 as the specification words it fails twice.  A process ended by a
    signal has the nonzero exit status -9, and the blocking invocation
    returns without raising anything.  And [wait] on a background
    invocation whose process exits with status 1 raises [TypeError], which
    the handler for [ErrorReturnCode] does not catch. *)
Lemma base_handler_counterexample :
  blocking one_process 0 sleep_process default_call_args
  /\ cache_holds_names one_process
  /\ ~ base_catches_every_nonzero (exits "" "" (-9)) one_process "/bin/sleep 60" 0
         sleep_process default_call_args None
  /\ ~ base_handler_catches
         (RunningCommand.wait (exits "out" "err" 1) 0 (backgrounded (exits "out" "err" 1))).
Proof.
  split; [exact sleep_is_blocking |].
  split; [intros z; reflexivity |]. split.
  - intros H. destruct H as (e & E & _); [discriminate |].
    vm_compute in E. discriminate.
  - intros (e & E & Hi). vm_compute in E. injection E as <-.
    vm_compute in Hi. discriminate.
Qed.

(** ** Waiting for a background invocation *)

Lemma join_captured (wr : wiring) (text : string) (st : interp) :
  (exists s, RunningCommand.join_empty (Popen.captured wr text) st = (Ok s, st))
  \/ (exists msg, RunningCommand.join_empty (Popen.captured wr text) st
                  = (Raise (Builtin Cls.TypeError msg), st)).
Proof. destruct wr; cbn; eauto. Qed.

Lemma done_reaped  (st : interp) (h : nat) (r : running_obj) (pid : nat) (p : popen_obj) :
  invocations st !! h = Some r -> process r = Some pid ->
  processes st !! pid = Some p ->
  RunningCommand.done h st = (Ok (match returncode p with Some _ => true | None => false end), st).
Proof.
  intros Hr Hpid Hp. unfold RunningCommand.done.
  erewrite bind_ok; [| unfold RunningCommand.self_, bind, gets; rewrite Hr; reflexivity];
    cbv beta iota.
  rewrite Hpid.
  erewrite bind_ok; [| unfold Popen.self_, bind, gets; rewrite Hp; reflexivity].
  reflexivity.
Qed.

Lemma wait_rec_done (depth : nat) (w : world) (st : interp) (h : nat) (r : running_obj)
    (pid : nat) (p : popen_obj) (rc : Z) :
  invocations st !! h = Some r -> process r = Some pid ->
  processes st !! pid = Some p -> returncode p = Some rc ->
  RunningCommand.wait_rec depth w h st = (Ok h, st).
Proof.
  intros Hr Hpid Hp Hrc.
  destruct depth; cbn [RunningCommand.wait_rec];
    (erewrite bind_ok; [| eapply done_reaped; eauto]); rewrite Hrc; reflexivity.
Qed.

Lemma stream_property_background (waiter : nat -> M nat) (field : running_obj -> pyval)
    (h x : nat) (r : running_obj) (v : pyval) (st : interp) :
  invocations st !! h = Some r ->
  call_args r !! "bg" = Some v -> PyVal.truth v = Some true ->
  waiter h st = (Ok x, st) ->
  RunningCommand.stream_property waiter field h st
  = RunningCommand.join_empty (field r) st.
Proof.
  intros Hr Hbg Tbg Hw. unfold RunningCommand.stream_property.
  assert (Hself : RunningCommand.self_ h st = (Ok r, st))
    by (unfold RunningCommand.self_, bind, gets; rewrite Hr; reflexivity).
  erewrite bind_ok; [| exact Hself]; cbv beta iota.
  erewrite bind_ok; [| eapply getitem_truthy; [exact Hbg | exact Tbg]]; cbv beta iota.
  erewrite bind_ok; [| unfold when_; erewrite bind_ok; [| exact Hw]; reflexivity];
    cbv beta iota.
  erewrite bind_ok; [| exact Hself]. reflexivity.
Qed.

(** C4 (the code departs from the claim).  For a background invocation
    without collectors whose process exits with a positive code, [wait]
    reaps the process and then raises [TypeError] instead of a classified
    failure: the failure class is called with the two streams only, without
    the command line its constructor requires. *)
Theorem wait_raises_type_error (w : world) (st : interp) (h : nat) (r : running_obj)
    (pid : nat) (p : popen_obj) :
  background st h r pid p ->
  (exit_code (os_run w pid (p_args p) None) > 0)%Z ->
  exists msg st', RunningCommand.wait w h st = (Raise (Builtin Cls.TypeError msg), st').
Proof.
  intros [Hr Hpid Hnc (v & Hbg & Tbg) Hp Hrun] Hpos.
  set (report := os_run w pid (p_args p) None) in *.
  unfold RunningCommand.wait. cbn [RunningCommand.wait_rec].
  erewrite bind_ok; [| eapply done_reaped; eauto]; cbv beta iota.
  rewrite Hrun.
  erewrite bind_ok; [| unfold RunningCommand.self_, bind, gets; rewrite Hr; reflexivity];
    cbv beta iota.
  rewrite Hnc, Hpid. run_ok.
  erewrite bind_ok; [| apply communicate_reaps; eauto]; cbv beta iota.
  fold report. run_ok.
  erewrite bind_ok; [| eapply wait_reaped;
    [cbn; rewrite list_lookup_alter_eq, Hp; reflexivity | reflexivity]]; cbv beta iota.
  assert (Hgt : (exit_code report >? 0)%Z = true) by (apply Z.gtb_lt; lia).
  rewrite Hgt.
  match goal with |- context [ bind (get_rc_exc ?rc) ?k ?s ] =>
    destruct (get_rc_exc_total rc s) as (c & s' & Ecls & Hinv & Hproc & _) end.
  erewrite bind_ok; [| exact Ecls]; cbv beta iota.
  cbn in Hinv, Hproc.
  assert (Hr' : invocations s' !! h = Some
            (RunningCommand.set_streams (Popen.captured (p_stdout p) (out_text report))
               (Popen.captured (p_stderr p) (err_text report)) r))
    by (rewrite Hinv, list_lookup_alter_eq, Hr; reflexivity).
  assert (Hp' : processes s' !! pid = Some (Popen.set_returncode (exit_code report) p))
    by (rewrite Hproc, list_lookup_alter_eq, Hp; reflexivity).
  assert (Hw : RunningCommand.wait_rec 0 w h s' = (Ok h, s'))
    by (eapply wait_rec_done; [exact Hr' | exact Hpid | exact Hp' | reflexivity]).
  assert (Hout : RunningCommand.stream_property (RunningCommand.wait_rec 0 w) _stdout h s'
                 = RunningCommand.join_empty (Popen.captured (p_stdout p) (out_text report)) s')
    by exact (stream_property_background (RunningCommand.wait_rec 0 w) _stdout h h _ v s'
                Hr' Hbg Tbg Hw).
  assert (Herr : RunningCommand.stream_property (RunningCommand.wait_rec 0 w) _stderr h s'
                 = RunningCommand.join_empty (Popen.captured (p_stderr p) (err_text report)) s')
    by exact (stream_property_background (RunningCommand.wait_rec 0 w) _stderr h h _ v s'
                Hr' Hbg Tbg Hw).
  change (exists msg st',
    bind (RunningCommand.stream_property (RunningCommand.wait_rec 0 w) _stdout h)
      (fun so => bind (RunningCommand.stream_property (RunningCommand.wait_rec 0 w) _stderr h)
         (fun se => bind (ErrorReturnCode.call c [VStr so; VStr se]) (fun e => (throw e : M nat)))) s'
    = (Raise (Builtin Cls.TypeError msg), st')).
  destruct (join_captured (p_stdout p) (out_text report) s') as [[so Eo] | [msg Eo]];
    rewrite <- Hout in Eo.
  2: { eexists _, _. erewrite bind_raise; [reflexivity | exact Eo]. }
  erewrite bind_ok; [| exact Eo]; cbv beta iota.
  destruct (join_captured (p_stderr p) (err_text report) s') as [[se Ee] | [msg Ee]];
    rewrite <- Herr in Ee.
  2: { eexists _, _. erewrite bind_raise; [reflexivity | exact Ee]. }
  erewrite bind_ok; [| exact Ee]; cbv beta iota.
  eexists _, _. erewrite bind_raise; [reflexivity | apply call_with_two].
Qed.

Lemma wait_raises_type_error_witness :
  exists msg st',
    RunningCommand.wait (exits "out" "err" 1) 0 (backgrounded (exits "out" "err" 1))
    = (Raise (Builtin Cls.TypeError msg), st').
Proof.
  eapply (wait_raises_type_error (exits "out" "err" 1) (backgrounded (exits "out" "err" 1)) 0).
  - split; [reflexivity | reflexivity | reflexivity
           | exists (VBool true); split; reflexivity | reflexivity | reflexivity].
  - reflexivity.
Defined.

(** ** String conversion *)

(** For a finished foreground invocation the conversion renders the
    aggregated stdout. *)
Lemma str_renders_stdout (w : world) (st : interp) (h : nat) (r : running_obj)
    (pid : nat) (v : pyval) (s : string) :
  invocations st !! h = Some r -> process r = Some pid ->
  call_args r !! "bg" = Some v -> PyVal.truth v = Some false ->
  _stdout r = VList [VStr s] ->
  utf8_valid w s = true ->
  RunningCommand.__str__ w h st = (Ok s, st).
Proof.
  intros Hr Hpid Hbg Tbg Hout Hutf.
  assert (Hs : RunningCommand.stdout w h st = (Ok s, st))
    by (eapply stream_property_foreground; eauto).
  assert (Hu : RunningCommand.__unicode__ w h st = (Ok (Some s), st)).
  { unfold RunningCommand.__unicode__.
    erewrite bind_ok; [| unfold RunningCommand.self_, bind, gets; rewrite Hr; reflexivity];
      cbv beta iota.
    rewrite Hpid.
    erewrite bind_ok; [| exact Hs]; cbv beta iota.
    destruct (String.eqb s "") eqn:Hempty; cbn [negb].
    - apply String.eqb_eq in Hempty. now subst s.
    - erewrite bind_ok; [| exact Hs]; cbv beta iota. now rewrite Hutf. }
  unfold RunningCommand.__str__. erewrite bind_ok; [| exact Hu]. reflexivity.
Qed.

(** C9 (the code departs from the claim).  For an invocation without a
    process handle, [__unicode__] falls off its end and returns [None]
    rather than the empty string, and the string conversion raises
    [TypeError]. *)
Theorem str_without_process_raises (w : world) (st : interp) (h : nat) (r : running_obj) :
  invocations st !! h = Some r -> process r = None ->
  RunningCommand.__unicode__ w h st = (Ok None, st)
  /\ RunningCommand.__str__ w h st
     = (Raise (Builtin Cls.TypeError
                 "coercing to Unicode: need string or buffer, NoneType found"), st).
Proof.
  intros Hr Hnone.
  assert (Hu : RunningCommand.__unicode__ w h st = (Ok None, st)).
  { unfold RunningCommand.__unicode__.
    erewrite bind_ok; [| unfold RunningCommand.self_, bind, gets; rewrite Hr; reflexivity];
      cbv beta iota.
    now rewrite Hnone. }
  split; [exact Hu |].
  unfold RunningCommand.__str__. erewrite bind_ok; [| exact Hu]. reflexivity.
Qed.

Lemma str_without_process_raises_witness :
  RunningCommand.__unicode__ (exits "" "" 0) 0 (placeholder (exits "" "" 0))
  = (Ok None, placeholder (exits "" "" 0))
  /\ RunningCommand.__str__ (exits "" "" 0) 0 (placeholder (exits "" "" 0))
     = (Raise (Builtin Cls.TypeError
                 "coercing to Unicode: need string or buffer, NoneType found"),
        placeholder (exits "" "" 0)).
Proof.
  eapply (str_without_process_raises (exits "" "" 0) (placeholder (exits "" "" 0)) 0);
    reflexivity.
Defined.

(** ** Baking and calling *)

Lemma alter_last {A} (f : A -> A) (l : list A) (x : A) :
  alter f (length l) (l ++ [x]) = l ++ [f x].
Proof.
  induction l as [|y l IH]; [reflexivity |]. cbn. f_equal. exact IH.
Qed.

Lemma extract_nothing : Command._extract_call_args [] ∅ = (default_call_args, []).
Proof. vm_compute. reflexivity. Qed.

Lemma extract_defaults :
  Command._extract_call_args [] default_call_args = (default_call_args, []).
Proof. vm_compute. reflexivity. Qed.

Lemma command_self (c : nat) (me : command_obj) (st : interp) :
  commands st !! c = Some me -> Command.self_ c st = (Ok me, st).
Proof. intros H. unfold Command.self_, bind, gets. now rewrite H. Qed.

Lemma bake_words (w : world) (st : interp) (self : nat) (me : command_obj)
    (ws : list string) :
  commands st !! self = Some me ->
  forallb word ws = true ->
  Command.bake w self (map VStr ws) [] st
  = (Ok (length (commands st)),
     set_commands (commands st ++ [baked_obj (_path me) ws]) st).
Proof.
  intros Hme Hws. unfold Command.bake.
  erewrite bind_ok; [| apply command_self; exact Hme]; cbv beta iota.
  run_ok. run_ok. rewrite extract_nothing.
  run_ok.
  erewrite bind_ok; [| apply compile_words; exact Hws]; cbv beta iota.
  run_ok. unfold ret. f_equal.
  unfold Command.update, modify. cbn.
  rewrite !alter_last. reflexivity.
Qed.

Lemma call_words (w : world) (st : interp) (self : nat) (me : command_obj)
    (ws : list string) :
  commands st !! self = Some me ->
  Command._extract_call_args [] (_partial_call_args me) = (default_call_args, []) ->
  forallb word ws = true ->
  Command.__call__ w self (map VStr ws) [] st
  = RunningCommand.__init__ w (PyString.join " " (argv_of st me ws))
      (Some (length (processes st))) default_call_args None VNone VNone
      (spawned st (argv_of st me ws)).
Proof.
  intros Hme Hex Hws. unfold Command.__call__.
  erewrite bind_ok; [| apply command_self; exact Hme]; cbv beta iota.
  run_ok. rewrite Hex. run_ok.
  erewrite bind_ok with (a := (default_call_args, PIPE, None, map VStr ws));
    [| destruct ws; reflexivity]; cbv beta iota.
  erewrite bind_ok; [| apply compile_words; exact Hws]; cbv beta iota.
  do 7 run_ok.
  unfold argv_of. rewrite <- !app_assoc. reflexivity.
Qed.

Lemma spawned_blocking (st : interp) (cmd : list string) :
  blocking (spawned st cmd) (length (processes st)) (piped cmd) default_call_args.
Proof.
  split.
  - unfold spawned. cbn. rewrite lookup_app_r, Nat.sub_diag by lia. reflexivity.
  - reflexivity.
  - exists (VBool false). split; reflexivity.
  - exists (VBool false). split; reflexivity.
Qed.

Lemma init_spawned (w : world) (st : interp) (cmd : list string) :
  invoked st cmd
    (RunningCommand.__init__ w (PyString.join " " cmd) (Some (length (processes st)))
       default_call_args None VNone VNone (spawned st cmd)).
Proof.
  pose proof (init_blocking w _ (PyString.join " " cmd) _ _ _ None (spawned_blocking st cmd))
    as [Hle Hgt].
  cbv zeta in Hle, Hgt.
  set (N := exit_code (os_run w (length (processes st)) (p_args (piped cmd)) None)) in *.
  assert (Hproc : forall s3, s3 = after_blocking_init (spawned st cmd) (PyString.join " " cmd)
            (length (processes st)) default_call_args N
            (kept (p_stdout (piped cmd)) (out_text (os_run w (length (processes st)) (p_args (piped cmd)) None)))
            (kept (p_stderr (piped cmd)) (err_text (os_run w (length (processes st)) (p_args (piped cmd)) None))) ->
            (exists p, processes s3 !! length (processes st) = Some p /\ p_args p = cmd)
            /\ _prepend_stack s3 = _prepend_stack st).
  { intros s3 ->. split; [| reflexivity].
    exists (Popen.set_returncode N (piped cmd)). split; [| reflexivity].
    unfold after_blocking_init, spawned. cbn.
    rewrite list_lookup_alter_eq, lookup_app_r, Nat.sub_diag by lia. reflexivity. }
  destruct (Z_le_gt_dec N 0) as [HN | HN].
  - rewrite (Hle HN). destruct (Hproc _ eq_refl) as [Hp Hs].
    split; [exact Hp |]. split; [exact Hs |]. left. eexists. reflexivity.
  - destruct (Hgt HN) as (cls & s4 & msg & Ecls & ->).
    match type of Ecls with get_rc_exc ?rc ?s = _ =>
      destruct (get_rc_exc_total rc s) as (c' & s' & Ecls' & _ & Hp' & Hs' & _) end.
    rewrite Ecls' in Ecls. injection Ecls as -> ->.
    destruct (Hproc _ eq_refl) as [Hp Hs].
    split; [cbn [snd]; rewrite Hp'; exact Hp |].
    split; [cbn [snd]; rewrite Hs'; exact Hs |].
    right. eexists _, _, _, _. reflexivity.
Qed.

(** C7 (amended).  For every command and all words [a], [b], [c] (non-empty
    strings without whitespace, quotes or backslashes): baking the command
    with [a, b] and calling the result with [c] spawns a process whose argv
    is exactly the prefix stack, then the path, then [a, b, c]; the call
    returns a handle or raises a classified failure. *)
Theorem bake_then_call_words (w : world) (st : interp) (self : nat) (me : command_obj)
    (a b c : string) :
  commands st !! self = Some me ->
  word a = true -> word b = true -> word c = true ->
  bake_call_argv w st self me a b c.
Proof.
  intros Hme Ha Hb Hc. split; [exact Hme |].
  eexists _, _. split.
  - apply (bake_words w st self me [a; b] Hme). cbn. now rewrite Ha, Hb.
  - set (st1 := set_commands _ st).
    change [VStr c] with (map VStr [c]).
    rewrite (call_words w st1 (length (commands st)) (baked_obj (_path me) [a; b]) [c]).
    + apply (init_spawned w st1).
    + subst st1. cbn. rewrite lookup_app_r, Nat.sub_diag by lia. reflexivity.
    + apply extract_defaults.
    + cbn. now rewrite Hc.
Qed.

Lemma bake_then_call_words_witness :
  bake_call_argv (exits "" "" 0) ls_created 0 ls_obj "-l" "-a" "/tmp".
Proof.
  apply (bake_then_call_words (exits "" "" 0) ls_created 0 ls_obj "-l" "-a" "/tmp");
    reflexivity.
Defined.

(** C7 as the specification words it fails for an argument with a blank:
    the compiled arguments are split again, so [x y] becomes two entries of
    the argv. *)
Lemma bake_then_call_counterexample :
  commands ls_created !! 0 = Some ls_obj
  /\ ~ bake_call_argv (exits "" "" 0) ls_created 0 ls_obj "x y" "b" "c".
Proof.
  split; [reflexivity |].
  intros (_ & fn & st1 & Hb & (p & Hp & Hargs) & _).
  vm_compute in Hb. injection Hb as <- <-.
  vm_compute in Hp. injection Hp as <-.
  vm_compute in Hargs. discriminate.
Qed.

(** ** The exit check of the collector threads *)

Section Collectors.
Import Collector.

(** Every step keeps the exit check to at most one run. *)
Lemma step_checked (side : who) (s s' : system) :
  step side s = Some s' -> checked_at_most_once s -> checked_at_most_once s'.
Proof.
  unfold checked_at_most_once, past_finally, step, finally, is_last_thread, is_alive, drain.
  destruct s as [started [ao so fo co bo go] [ae se fe ce be ge] rc n fs].
  destruct side; cbn.
  - destruct started; [discriminate |]. intros [= <-]. cbn. tauto.
  - destruct ao; cbn.
    + destruct started; [| discriminate]. intros [= <-]. cbn. intuition discriminate.
    + intros [= <-]. cbn.
      destruct (if (bo =? 1)%Z then _ else _) as [u rest].
      destruct (String.eqb u ""); [cbn; intuition discriminate |].
      destruct fo as [f |]; [destruct co; [destruct (f u) as [[|] |] |] |];
        cbn; intuition discriminate.
    + intros [= <-]. destruct ae; cbn; intuition (try discriminate; try lia).
    + intros [= <-]. cbn. tauto.
    + discriminate.
  - destruct ae; cbn.
    + destruct started; [| discriminate]. intros [= <-]. cbn. intuition discriminate.
    + intros [= <-]. cbn.
      destruct (if (be =? 1)%Z then _ else _) as [u rest].
      destruct (String.eqb u ""); [cbn; intuition discriminate |].
      destruct fe as [f |]; [destruct ce; [destruct (f u) as [[|] |] |] |];
        cbn; intuition discriminate.
    + intros [= <-]. destruct ao; cbn; intuition (try discriminate; try lia).
    + intros [= <-]. cbn. tauto.
    + discriminate.
Qed.

Lemma run_checked (schedule : list who) (s s' : system) :
  run schedule s = Some s' -> checked_at_most_once s -> checked_at_most_once s'.
Proof.
  revert s. induction schedule as [|side rest IH]; intros s; cbn.
  - now intros [= <-].
  - destruct (step side s) as [s1 |] eqn:E; [| discriminate].
    intros Hrun Hs. eapply IH; [exact Hrun |]. eapply step_checked; eauto.
Qed.

(** X26.  The exit check runs at most once, whatever the schedule of the
    two collectors and of the thread that started them. *)
Lemma exit_check_at_most_once (schedule : list who) (out err : string)
    (fn_out fn_err : option callback) (bufsize rc : Z) (s : system) :
  run schedule (spawn out err fn_out fn_err bufsize rc) = Some s ->
  exit_checks s <= 1.
Proof.
  intros Hrun.
  destruct (run_checked _ _ _ Hrun) as [H | [H _]]; [left; reflexivity | |]; lia.
Qed.

(** C3 (the code departs from the claim).  When both collectors reach their
    finally clause before either thread has ended, each finds the other
    still alive, neither is the last thread, and the exit status is never
    checked: whatever the exit status, no check and no failure. *)
Theorem exit_check_skipped_by_race (rc : Z) :
  exists s,
    run racing_schedule (spawn "" "" None None 1 rc) = Some s
    /\ finished s = true
    /\ exit_checks s = 0
    /\ failures s = [].
Proof. eexists. repeat split. Qed.

(** When one collector has ended before the other reaches its finally
    clause, the check runs once. *)
Lemma exit_check_once_when_serial (rc : Z) :
  exists s,
    run serial_schedule (spawn "" "" None None 1 rc) = Some s
    /\ finished s = true
    /\ exit_checks s = 1
    /\ failures s = (if (rc >? 0)%Z then [rc] else []).
Proof. eexists. repeat split. Qed.

Lemma exit_check_once_when_serial_err_first (rc : Z) :
  exists s,
    run serial_schedule_err_first (spawn "" "" None None 1 rc) = Some s
    /\ finished s = true
    /\ exit_checks s = 1
    /\ failures s = (if (rc >? 0)%Z then [rc] else []).
Proof. eexists. repeat split. Qed.

End Collectors.

(** ** The prefix stack *)

(** A call without arguments spawns the prefix stack, the path and the baked
    arguments. *)
Lemma call_plain (w : world) (st : interp) (self : nat) (me : command_obj) :
  commands st !! self = Some me ->
  Command._extract_call_args [] (_partial_call_args me) = (default_call_args, []) ->
  invoked st (argv_of st me []) (Command.__call__ w self [] [] st).
Proof.
  intros Hme Hex.
  change (@nil pyval) with (map VStr []).
  rewrite (call_words w st self me [] Hme Hex eq_refl).
  apply init_spawned.
Qed.

(** C8 (the code departs from the claim).  Inside
    [with sudo(_with=True): with nice(_with=True):] the prefix stack holds
    [sudo] and [sudo nice]: the inner with-call pushes its whole command
    line, outer prefix included.  An invocation in the nested scope gets the
    outer prefix twice: its argv is [sudo sudo nice ls]. *)
Theorem nested_with_duplicates_prefix (w : world) :
  exists ls st,
    nested_with_calls w initial_interp = (Ok ls, st)
    /\ _prepend_stack st = [["/usr/bin/sudo"]; ["/usr/bin/sudo"; "/usr/bin/nice"]]
    /\ invoked st ["/usr/bin/sudo"; "/usr/bin/sudo"; "/usr/bin/nice"; "/bin/ls"]
         (Command.__call__ w ls [] [] st).
Proof.
  eexists _, _. split; [vm_compute; reflexivity |]. split; [reflexivity |].
  match goal with |- invoked ?st _ _ => exact (call_plain w st 2 ls_obj eq_refl extract_nothing) end.
Qed.

(** After both contexts are left the stack is empty and an invocation has
    no prefix. *)
Lemma nested_with_balanced (w : world) :
  exists ls st,
    nested_with_calls_left w initial_interp = (Ok ls, st)
    /\ _prepend_stack st = []
    /\ invoked st ["/bin/ls"] (Command.__call__ w ls [] [] st).
Proof.
  eexists _, _. split; [vm_compute; reflexivity |]. split; [reflexivity |].
  match goal with |- invoked ?st _ _ => exact (call_plain w st 2 ls_obj eq_refl extract_nothing) end.
Qed.

(** Entered as [with sudo: with nice:], the contexts push their paths only,
    and the nested invocation has the argv [sudo nice ls]. *)
Lemma nested_commands_prefix (w : world) :
  exists ls st,
    nested_with_commands initial_interp = (Ok ls, st)
    /\ invoked st ["/usr/bin/sudo"; "/usr/bin/nice"; "/bin/ls"]
         (Command.__call__ w ls [] [] st).
Proof.
  eexists _, _. split; [vm_compute; reflexivity |].
  match goal with |- invoked ?st _ _ => exact (call_plain w st 2 ls_obj eq_refl extract_nothing) end.
Qed.

(** ** What argument compilation and baking leave alone *)

Section Quiet.

Lemma quiet_ret {A} (a : A) : quiet (ret a).
Proof. intros st. split; reflexivity. Qed.

Lemma quiet_raise {A} (cls : nat) (msg : string) : quiet (@raise A cls msg).
Proof. intros st. split; reflexivity. Qed.

Lemma quiet_throw {A} (e : pyexc) : quiet (@throw A e).
Proof. intros st. split; reflexivity. Qed.

Lemma quiet_outside {A} : quiet (@outside A).
Proof. intros st. split; reflexivity. Qed.

Lemma quiet_gets {A} (f : interp -> A) : quiet (gets f).
Proof. intros st. split; reflexivity. Qed.

Lemma quiet_of_option {A} (o : option A) : quiet (of_option o).
Proof. destruct o; [apply quiet_ret | apply quiet_outside]. Qed.

Lemma quiet_modify (f : interp -> interp) :
  (forall st, commands (f st) = commands st /\ _prepend_stack (f st) = _prepend_stack st) ->
  quiet (modify f).
Proof. intros Hf st. exact (Hf st). Qed.

Lemma quiet_bind {A B} (c : M A) (k : A -> M B) :
  quiet c -> (forall a, quiet (k a)) -> quiet (bind c k).
Proof.
  intros Hc Hk st. unfold bind. specialize (Hc st).
  destruct (c st) as [[a | e |] st1]; cbn in *; [| exact Hc | exact Hc].
  destruct (Hk a st1) as [H1 H2]. destruct Hc as [H3 H4].
  split; congruence.
Qed.

Lemma quiet_mapM {A B} (f : A -> M B) (l : list A) :
  (forall x, quiet (f x)) -> quiet (mapM_ f l).
Proof.
  intros Hf. induction l as [|x l IH]; cbn [mapM_]; [apply quiet_ret |].
  apply quiet_bind; [apply Hf | intros y].
  apply quiet_bind; [exact IH | intros ys]. apply quiet_ret.
Qed.

Create HintDb quiet.
#[local] Hint Resolve quiet_ret quiet_raise quiet_throw quiet_outside quiet_gets
  quiet_of_option quiet_mapM : quiet.
#[local] Hint Extern 1 (quiet (modify _)) =>
  apply quiet_modify; intros ?; split; reflexivity : quiet.

Ltac quiet_step :=
  first
    [ solve [auto with quiet nocore]
    | apply quiet_bind; [| intros ?]
    | match goal with
      | |- quiet (match ?x with _ => _ end) => destruct x
      end ].

Ltac quiet_auto := repeat quiet_step.

Lemma quiet_when {A} (b : bool) (c : M A) : quiet c -> quiet (when_ b c).
Proof. intros Hc. unfold when_. quiet_auto. Qed.

Lemma quiet_getitem (d : gmap string pyval) (k : string) : quiet (getitem d k).
Proof. unfold getitem. quiet_auto. Qed.

Lemma quiet_truthy (v : pyval) : quiet (truthy v).
Proof. unfold truthy. quiet_auto. Qed.

Lemma quiet_type (name : string) (bases : list nat) : quiet (type_ name bases).
Proof. intros st. split; reflexivity. Qed.
#[local] Hint Resolve quiet_when quiet_getitem quiet_truthy quiet_type : quiet.

Lemma quiet_get_rc_exc (rc : Z) : quiet (get_rc_exc rc).
Proof. unfold get_rc_exc. quiet_auto. Qed.

Lemma quiet_call (cls : nat) (args : list pyval) : quiet (ErrorReturnCode.call cls args).
Proof.
  unfold ErrorReturnCode.call, ErrorReturnCode.__init__, ErrorReturnCode.preview.
  quiet_auto.
Qed.

Lemma quiet_popen_self (pid : nat) : quiet (Popen.self_ pid).
Proof. unfold Popen.self_. quiet_auto. Qed.
#[local] Hint Resolve quiet_get_rc_exc quiet_call quiet_popen_self : quiet.

Lemma quiet_communicate (w : world) (pid : nat) (input : option string) :
  quiet (Popen.communicate w pid input).
Proof. unfold Popen.communicate. quiet_auto. Qed.

Lemma quiet_popen_wait (w : world) (pid : nat) : quiet (Popen.wait w pid).
Proof. unfold Popen.wait. quiet_auto. Qed.

Lemma quiet_self (h : nat) : quiet (RunningCommand.self_ h).
Proof. unfold RunningCommand.self_. quiet_auto. Qed.

Lemma quiet_update (h : nat) (f : running_obj -> running_obj) :
  quiet (RunningCommand.update h f).
Proof. unfold RunningCommand.update. quiet_auto. Qed.
#[local] Hint Resolve quiet_communicate quiet_popen_wait quiet_self quiet_update : quiet.

Lemma quiet_done (h : nat) : quiet (RunningCommand.done h).
Proof. unfold RunningCommand.done. quiet_auto. Qed.

Lemma quiet_join_empty (v : pyval) : quiet (RunningCommand.join_empty v).
Proof.
  unfold RunningCommand.join_empty.
  destruct v; quiet_auto; apply quiet_mapM; intros x; quiet_auto.
Qed.
#[local] Hint Resolve quiet_done quiet_join_empty : quiet.

Lemma quiet_stream_property (waiter : nat -> M nat) (field : running_obj -> pyval) (h : nat) :
  (forall x, quiet (waiter x)) -> quiet (RunningCommand.stream_property waiter field h).
Proof. intros Hw. unfold RunningCommand.stream_property. quiet_auto. Qed.
#[local] Hint Resolve quiet_stream_property : quiet.

Lemma quiet_wait_rec (depth : nat) (w : world) (h : nat) :
  quiet (RunningCommand.wait_rec depth w h).
Proof.
  revert h. induction depth as [|depth IH]; intros h; cbn [RunningCommand.wait_rec];
    quiet_auto.
Qed.
#[local] Hint Resolve quiet_wait_rec : quiet.

Lemma quiet_stdout (w : world) (h : nat) : quiet (RunningCommand.stdout w h).
Proof. unfold RunningCommand.stdout, RunningCommand.wait. quiet_auto. Qed.
#[local] Hint Resolve quiet_stdout : quiet.

Lemma quiet_str (w : world) (h : nat) : quiet (RunningCommand.__str__ w h).
Proof. unfold RunningCommand.__str__, RunningCommand.__unicode__. quiet_auto. Qed.
#[local] Hint Resolve quiet_str : quiet.

Lemma quiet_py_str (w : world) (v : pyval) : quiet (Command.py_str w v).
Proof. unfold Command.py_str. quiet_auto. Qed.

Lemma quiet_py_repr (w : world) (v : pyval) : quiet (Command.py_repr w v).
Proof. unfold Command.py_repr. quiet_auto. Qed.
#[local] Hint Resolve quiet_py_str quiet_py_repr : quiet.

Lemma quiet_compile_args (w : world) (args : list pyval) (kwargs : kwargs_t) :
  quiet (Command._compile_args w args kwargs).
Proof.
  unfold Command._compile_args.
  apply quiet_bind; [| intros positional; apply quiet_bind; [| intros named]].
  - apply quiet_mapM. intros arg. unfold Command.compile_arg. quiet_auto.
  - apply quiet_mapM. intros [k v]. unfold Command.compile_kwarg. quiet_auto.
  - quiet_auto.
Qed.

End Quiet.

Lemma keeps_quiet (n : nat) {A} (c : M A) : quiet c -> keeps n c.
Proof. intros Hc st Hn. destruct (Hc st) as [-> _]. auto. Qed.

Lemma keeps_bind (n : nat) {A B} (c : M A) (k : A -> M B) :
  keeps n c -> (forall a, keeps n (k a)) -> keeps n (bind c k).
Proof.
  intros Hc Hk st Hn. unfold bind. destruct (Hc st Hn) as [Hn1 H1].
  destruct (c st) as [[a | e |] st1]; cbn in *; [| auto | auto].
  destruct (Hk a st1 Hn1) as [Hn2 H2]. split; [exact Hn2 |].
  intros i Hi. rewrite (H2 i Hi). auto.
Qed.

Lemma keeps_update (n fn : nat) (f : command_obj -> command_obj) :
  n <= fn -> keeps n (Command.update fn f).
Proof.
  intros Hfn st Hn. unfold Command.update, modify. cbn. split.
  - now rewrite length_alter.
  - intros i Hi. apply list_lookup_alter_ne. lia.
Qed.

Lemma bind_outside {A B} (c : M A) (k : A -> M B) (st st' : interp) :
  c st = (Outside, st') -> bind c k st = (Outside, st').
Proof. intros H. unfold bind. now rewrite H. Qed.

Lemma keeps_bake (n : nat) (w : world) (self : nat) (args : list pyval)
    (kwargs : kwargs_t) :
  keeps n (Command.bake w self args kwargs).
Proof.
  intros st Hn. unfold Command.bake.
  destruct (commands st !! self) as [me |] eqn:Hme.
  - erewrite bind_ok; [| apply command_self; exact Hme]; cbv beta.
    erewrite bind_ok; [| reflexivity]; cbv beta.
    match goal with |- context [ bind ?c ?k ?s1 ] =>
      assert (K : keeps n (bind c k)); [| destruct (K s1) as [K1 K2] ] end.
    + apply keeps_bind; [apply keeps_update; exact Hn | intros _].
      destruct (Command._extract_call_args kwargs ∅) as [ca kw].
      apply keeps_bind; [apply keeps_update; exact Hn | intros _].
      apply keeps_bind; [apply keeps_quiet, quiet_compile_args | intros processed].
      apply keeps_bind; [apply keeps_update; exact Hn | intros _].
      apply keeps_quiet, quiet_ret.
    + cbn. rewrite length_app. lia.
    + split; [exact K1 |]. intros i Hi. rewrite (K2 i Hi). cbn.
      apply lookup_app_l. lia.
  - erewrite bind_outside; [| unfold Command.self_, bind, gets; rewrite Hme; reflexivity].
    cbn. auto.
Qed.

(** X28.  Baking never changes an existing command object: the new
    command is appended, and whatever the arguments are and however the
    call ends, every command of before is as it was. *)
Lemma bake_keeps_commands (w : world) (self : nat) (args : list pyval) (kwargs : kwargs_t)
    (st : interp) (c : nat) (obj : command_obj) :
  commands st !! c = Some obj ->
  commands (snd (Command.bake w self args kwargs st)) !! c = Some obj.
Proof.
  intros Hc. pose proof (lookup_lt_Some _ _ _ Hc) as Hlt.
  destruct (keeps_bake (length (commands st)) w self args kwargs st) as [_ H]; [lia |].
  now rewrite (H c Hlt).
Qed.

(** ** Baking *)

Lemma bake_words_kwargs (w : world) (st : interp) (self : nat) (me : command_obj)
    (ws : list string) (kwargs : kwargs_t) :
  commands st !! self = Some me ->
  forallb word ws = true ->
  snd (Command._extract_call_args kwargs ∅) = [] ->
  Command.bake w self (map VStr ws) kwargs st
  = (Ok (length (commands st)),
     set_commands (commands st ++
       [{| _path := _path me; _partial := true; _partial_baked_args := ws;
           _partial_call_args := fst (Command._extract_call_args kwargs ∅) |}]) st).
Proof.
  intros Hme Hws Hkw. unfold Command.bake.
  erewrite bind_ok; [| apply command_self; exact Hme]; cbv beta iota.
  run_ok. run_ok.
  destruct (Command._extract_call_args kwargs ∅) as [ca kw]. cbn in Hkw. subst kw.
  run_ok.
  erewrite bind_ok; [| apply compile_words; exact Hws]; cbv beta iota.
  run_ok. unfold ret. f_equal.
  unfold Command.update, modify. cbn.
  rewrite !alter_last. reflexivity.
Qed.

Lemma bake_runs (w : world) (st : interp) (self : nat) (me : command_obj)
    (args : list pyval) (kwargs : kwargs_t) (processed : list string) (st2 : interp) :
  commands st !! self = Some me ->
  Command._compile_args w args (snd (Command._extract_call_args kwargs ∅))
    (bake_registered st (_path me) (fst (Command._extract_call_args kwargs ∅)))
  = (Ok processed, st2) ->
  Command.bake w self args kwargs st
  = (Ok (length (commands st)),
     set_commands (alter (Command.set_partial_baked_args processed) (length (commands st))
                     (commands st2)) st2).
Proof.
  intros Hme Hc. unfold Command.bake.
  erewrite bind_ok; [| apply command_self; exact Hme]; cbv beta iota.
  run_ok. run_ok.
  destruct (Command._extract_call_args kwargs ∅) as [ca kw]. cbn [fst snd] in Hc.
  run_ok.
  erewrite bind_ok; cycle 1.
  { unfold Command.update, modify. cbn. rewrite !alter_last. exact Hc. }
  cbv beta iota. run_ok. reflexivity.
Qed.

(** C5 (amended).  For every command, baked or not, and all arguments and
    keywords: [bake] leaves every existing command as it was, and when the
    arguments compile it returns a new command with the path of the parent
    that holds the compiled arguments and the overrides of the call alone. *)
Theorem bake_replaces_parent_layer (w : world) (st : interp) (self : nat)
    (me : command_obj) (args : list pyval) (kwargs : kwargs_t) :
  commands st !! self = Some me ->
  bake_replaces w st self me args kwargs.
Proof.
  intros Hme. pose proof (lookup_lt_Some _ _ _ Hme) as Hlt. split.
  - intros c obj Hc. pose proof (lookup_lt_Some _ _ _ Hc) as Hcl.
    destruct (keeps_bake (length (commands st)) w self args kwargs st) as [_ H]; [lia |].
    now rewrite (H c Hcl).
  - intros processed st2 Hc.
    rewrite (bake_runs w st self me args kwargs processed st2 Hme Hc).
    destruct (quiet_compile_args w args (snd (Command._extract_call_args kwargs ∅))
                (bake_registered st (_path me) (fst (Command._extract_call_args kwargs ∅))))
      as [Hcs _].
    rewrite Hc in Hcs. cbn [snd] in Hcs.
    set (ca := fst (Command._extract_call_args kwargs ∅)) in *.
    unfold bake_registered in Hcs. cbn [commands set_commands] in Hcs.
    eexists _, _. split; [reflexivity |]. split; [lia |].
    cbn [commands set_commands]. rewrite Hcs. split.
    + rewrite list_lookup_alter_ne by lia. rewrite lookup_app_l by lia. exact Hme.
    + rewrite alter_last, lookup_app_r, Nat.sub_diag by lia. reflexivity.
Qed.

Lemma bake_replaces_parent_layer_witness :
  exists fn st',
    Command.bake (exits "" "" 0) 1 [VStr "-a"] [("_fg", VBool true)] long_baked = (Ok fn, st')
    /\ fn <> 1
    /\ commands st' !! 1 = Some long_obj
    /\ commands st' !! fn
       = Some {| _path := "/bin/ls"; _partial := true; _partial_baked_args := ["-a"];
                 _partial_call_args := <["fg" := VBool true]> default_call_args |}.
Proof.
  destruct (bake_replaces_parent_layer (exits "" "" 0) long_baked 1 long_obj
              [VStr "-a"] [("_fg", VBool true)]) as [_ H].
  - vm_compute. reflexivity.
  - apply (H ["-a"] (bake_registered long_baked "/bin/ls"
                       (<["fg" := VBool true]> default_call_args))).
    vm_compute. reflexivity.
Defined.

(** C5 as the specification words it fails for a parent that is itself
    baked: [Command.bake] applied to [ls.bake("-l", _bg=True)] with [-a]
    does not keep [-l]. *)
Lemma bake_layers_counterexample :
  commands long_baked !! 1 = Some long_obj
  /\ ~ bake_layers (exits "" "" 0) long_baked 1 long_obj ["-a"] [].
Proof.
  split; [vm_compute; reflexivity |].
  intros (_ & fn & st' & new & Hb & _ & Hnew & _ & _ & Hargs & _).
  vm_compute in Hb. injection Hb as <- <-.
  vm_compute in Hnew. injection Hnew as <-.
  vm_compute in Hargs. discriminate.
Qed.

(** On a baked command the attribute [bake] is not the method: the lookup
    returns a [BakedCommand], which runs the program with the argument
    [bake]. *)
Lemma getattribute_bake (st : interp) (c : nat) (me : command_obj) :
  commands st !! c = Some me ->
  Command.__getattribute__ c "bake" st
  = (Ok (if _partial me then Command.BakedCommand c "bake" else Command.Ordinary "bake"), st).
Proof.
  intros Hme. unfold Command.__getattribute__. cbn [String.prefix existsb Command.public_names].
  cbn.
  erewrite bind_ok; [| apply command_self; exact Hme]; cbv beta iota.
  destruct (_partial me); reflexivity.
Qed.

Lemma call_baked_runs_subcommand (w : world) (st : interp) (c : nat) (me : command_obj)
    (attr : string) (ws : list string) :
  commands st !! c = Some me ->
  Command._extract_call_args [] (_partial_call_args me) = (default_call_args, []) ->
  forallb word (attr :: ws) = true ->
  invoked st (argv_of st me (attr :: ws)) (Command.call_baked w c attr (map VStr ws) [] st).
Proof.
  intros Hme Hex Hws. unfold Command.call_baked.
  change (VStr attr :: map VStr ws) with (map VStr (attr :: ws)).
  rewrite (call_words w st c me (attr :: ws) Hme Hex Hws).
  apply init_spawned.
Qed.

(** [ls.bake("-l", _bg=True)] holds the argument [-l] and the override
    [bg = True]; [Command.bake] applied to it with [-a] gives a command
    whose baked arguments are [-a] alone and whose [bg] is back to [False].
    The parent itself is unchanged. *)
Lemma bake_drops_parent_layer (w : world) :
  exists st long all,
    bake_twice w initial_interp = (Ok (1, 2), st)
    /\ commands st !! 1 = Some long /\ commands st !! 2 = Some all
    /\ _partial_baked_args long = ["-l"]
    /\ _partial_call_args long !! "bg" = Some (VBool true)
    /\ _partial_baked_args all = ["-a"]
    /\ _partial_call_args all !! "bg" = Some (VBool false).
Proof.
  eexists _, _, _. split; [vm_compute; reflexivity |]. repeat split.
Qed.

(** * Further properties *)

(** ** The execution modes of a call *)

Section Extract.
Variable to_override : gmap string pyval.


Lemma kw_lookup_none_del (k : string) (kw : kwargs_t) :
  kw_lookup k kw = None -> kw_del k kw = kw.
Proof.
  induction kw as [|[k' v] kw IH]; [reflexivity |].
  cbn. destruct (String.eqb k k'); [discriminate |]. intros H. now rewrite IH.
Qed.

Lemma kw_lookup_del_ne (k k' : string) (kw : kwargs_t) :
  k <> k' -> kw_lookup k (kw_del k' kw) = kw_lookup k kw.
Proof.
  intros Hne. induction kw as [|[k2 v] kw IH]; [reflexivity |].
  cbn. destruct (String.eqb_spec k' k2) as [-> | H2].
  - rewrite IH. destruct (String.eqb_spec k k2); [contradiction | reflexivity].
  - cbn. now rewrite IH.
Qed.

Lemma turn_kwargs (ca : gmap string pyval) (kw : kwargs_t) (parg : string) :
  snd (extract_turn to_override (ca, kw) parg) = kw_del ("_" +:+ parg) kw.
Proof.
  cbn. destruct (kw_lookup _ kw) eqn:E; [reflexivity |].
  rewrite (kw_lookup_none_del _ _ E). now destruct (to_override !! parg).
Qed.



(** the call argument [parg] after the loop over [names] *)
Lemma turns_lookup (names : list string) (ca : gmap string pyval) (kw : kwargs_t)
    (parg : string) :
  NoDup names ->
  fst (foldl (extract_turn to_override) (ca, kw) names) !! parg
  = if existsb (String.eqb parg) names then
      match kw_lookup ("_" +:+ parg) kw with
      | Some v => Some v
      | None =>
          match to_override !! parg with
          | Some v => Some v
          | None => ca !! parg
          end
      end
    else ca !! parg.
Proof.
  intros Hnd. revert ca kw. induction Hnd as [|name names Hnotin Hnd IH]; intros ca kw.
  - reflexivity.
  - cbn [foldl existsb].
    destruct (extract_turn to_override (ca, kw) name) as [ca1 kw1] eqn:E.
    rewrite IH.
    assert (Hkw1 : kw1 = kw_del ("_" +:+ name) kw)
      by (pose proof (turn_kwargs ca kw name) as Hk; rewrite E in Hk; exact Hk).
    destruct (String.eqb_spec parg name) as [-> | Hne].
    + assert (Hno : existsb (String.eqb name) names = false).
      { apply not_true_is_false. intros H. apply existsb_exists in H as (x & Hx & Hxe).
        apply String.eqb_eq in Hxe. subst x. apply Hnotin. now apply list_elem_of_In. }
      rewrite Hno. cbn [orb]. cbn in E.
      destruct (kw_lookup ("_" +:+ name) kw) as [v |].
      * injection E as <- <-. now rewrite lookup_insert_eq.
      * destruct (to_override !! name) as [v |]; injection E as <- <-;
          [now rewrite lookup_insert_eq | reflexivity].
    + cbn [orb].
      assert (Hca1 : ca1 !! parg = ca !! parg).
      { cbn in E. destruct (kw_lookup ("_" +:+ name) kw) as [v |];
          [| destruct (to_override !! name) as [v |]]; injection E as <- <-;
          try (rewrite lookup_insert_ne by congruence); reflexivity. }
      rewrite Hca1, Hkw1.
      rewrite kw_lookup_del_ne; [reflexivity |].
      intros H. injection H as H. contradiction.
Qed.

End Extract.

(** X1.  Precedence of the execution modes: every mode of [call_args] gets
    a value, taken from the keyword [_mode] of the call if there is one,
    else from the modes baked into the command, else the default. *)
Theorem extract_call_args_precedence (kwargs : kwargs_t) (to_override : gmap string pyval)
    (parg : string) (default : pyval) :
  In (parg, default) Command.call_args ->
  fst (Command._extract_call_args kwargs to_override) !! parg
  = Some (match kw_lookup ("_" +:+ parg) kwargs with
          | Some v => v
          | None =>
              match to_override !! parg with
              | Some v => v
              | None => default
              end
          end).
Proof.
  intros Hin.
  change (Command._extract_call_args kwargs to_override)
    with (foldl (extract_turn to_override) (default_call_args, kwargs)
            (map fst Command.call_args)).
  rewrite (turns_lookup to_override (map fst Command.call_args) _ kwargs parg).
  2: { apply (bool_decide_unpack _). vm_compute. exact I. }
  cbn in Hin.
  repeat (destruct Hin as [[= <- <-] | Hin];
          [destruct (kw_lookup _ kwargs); [reflexivity |];
           destruct (to_override !! _); reflexivity |]).
  destruct Hin.
Qed.

Lemma extract_call_args_precedence_witness :
  fst (Command._extract_call_args [("_bg", VBool true); ("all", VBool true)] ∅) !! "bg"
  = Some (VBool true).
Proof.
  apply (extract_call_args_precedence [("_bg", VBool true); ("all", VBool true)] ∅
           "bg" (VBool false)).
  cbn. tauto.
Defined.


(** ** Argument compilation: lists, blanks and quotes *)

Section CompileMore.
Variable w : world.

Lemma str_strings (ws : list string) (st : interp) :
  mapM_ (Command.py_str w) (map VStr ws) st = (Ok ws, st).
Proof.
  induction ws as [|u ws IH]; [reflexivity |].
  cbn [map mapM_]. unfold bind at 1. cbn. unfold bind at 1. rewrite IH. reflexivity.
Qed.

Lemma compile_groups (groups : list (list string)) (st : interp) :
  mapM_ (Command.compile_arg w) (map (fun g => VList (map VStr g)) groups) st
  = (Ok groups, st).
Proof.
  induction groups as [|g groups IH]; [reflexivity |].
  cbn [map mapM_]. unfold bind at 1. cbn [Command.compile_arg].
  rewrite str_strings. unfold bind at 1. rewrite IH. reflexivity.
Qed.

(** X3.  Sequences among the positional arguments are flattened one level:
    lists of words compile to the same command line as the words given one
    by one. *)
Theorem compile_args_flattens (groups : list (list string)) (st : interp) :
  forallb word (concat groups) = true ->
  Command._compile_args w (map (fun g => VList (map VStr g)) groups) [] st
  = Command._compile_args w (map VStr (concat groups)) [] st
  /\ Command._compile_args w (map (fun g => VList (map VStr g)) groups) [] st
     = (Ok (concat groups), st).
Proof.
  intros Hws. rewrite (compile_words w (concat groups) st Hws).
  split; unfold Command._compile_args; unfold bind at 1; rewrite compile_groups; cbn;
    rewrite app_nil_r, (split_words _ Hws); reflexivity.
Qed.

(** X4.  The joined arguments are split again: one string of words
    separated by blanks compiles to the words, one argument each. *)
Theorem compile_args_resplits (ws : list string) (st : interp) :
  forallb word ws = true ->
  Command._compile_args w [VStr (PyString.join " " ws)] [] st = (Ok ws, st).
Proof.
  intros Hws. unfold Command._compile_args. run_ok. run_ok.
  cbn [concat app PyString.join].
  rewrite (split_words ws Hws). reflexivity.
Qed.

Lemma quote_not_blank (q : ascii) : shlex.quotes q = true -> shlex.whitespace q = false.
Proof.
  unfold shlex.quotes. rewrite orb_true_iff, !Ascii.eqb_eq. intros [-> | ->]; reflexivity.
Qed.

Lemma split_unclosed (u : string) (q : ascii) :
  plain u = true -> shlex.quotes q = true ->
  shlex.split (u +:+ PyString.char q) = None.
Proof.
  intros Hu Hq. pose proof (quote_not_blank q Hq) as Hw. unfold shlex.split.
  destruct u as [|c u].
  - change ("" +:+ PyString.char q) with (String q "").
    cbn [shlex.read]. rewrite Hw, Hq.
    destruct (shlex.escape q); reflexivity.
  - cbn in Hu. apply andb_true_iff in Hu as [Hc Hu].
    destruct (plain_char_cases c Hc) as (Hcw & Hcq & Hce).
    change (String c u +:+ PyString.char q) with (String c (u +:+ PyString.char q)).
    cbn [shlex.read]. rewrite Hcw, Hce, Hcq.
    rewrite (read_plain u Hu).
    change (PyString.char q) with (String q "").
    cbn [shlex.read]. rewrite Hw, Hq. reflexivity.
Qed.

(** X5.  An argument that ends in an unclosed quote makes the compilation
    raise [ValueError], and nothing is spawned. *)
Theorem compile_args_unclosed_quote (u : string) (q : ascii) (st : interp) :
  plain u = true -> shlex.quotes q = true ->
  Command._compile_args w [VStr (u +:+ PyString.char q)] [] st
  = (Raise (Builtin Cls.ValueError "No closing quotation"), st).
Proof.
  intros Hu Hq. unfold Command._compile_args. run_ok. run_ok.
  cbn [concat app PyString.join].
  rewrite (split_unclosed u q Hu Hq). reflexivity.
Qed.

End CompileMore.

Lemma compile_args_flattens_witness :
  Command._compile_args (exits "" "" 0) [VList [VStr "-l"; VStr "-a"]; VList [VStr "/tmp"]] []
    initial_interp
  = (Ok ["-l"; "-a"; "/tmp"], initial_interp).
Proof.
  apply (compile_args_flattens (exits "" "" 0) [["-l"; "-a"]; ["/tmp"]] initial_interp).
  reflexivity.
Defined.

Lemma compile_args_resplits_witness :
  Command._compile_args (exits "" "" 0) [VStr "-l -a /tmp"] [] initial_interp
  = (Ok ["-l"; "-a"; "/tmp"], initial_interp).
Proof.
  apply (compile_args_resplits (exits "" "" 0) ["-l"; "-a"; "/tmp"] initial_interp).
  reflexivity.
Defined.

Lemma compile_args_unclosed_quote_witness :
  Command._compile_args (exits "" "" 0) [VStr "it'"] [] initial_interp
  = (Raise (Builtin Cls.ValueError "No closing quotation"), initial_interp).
Proof.
  apply (compile_args_unclosed_quote (exits "" "" 0) "it" "'"%char initial_interp);
    reflexivity.
Defined.

(** ** Contexts and the prefix stack *)

Lemma removelast_snoc {A} (l : list A) (x : A) : removelast (l ++ [x]) = l.
Proof. apply removelast_last. Qed.

Lemma set_prepend_stack_same (st : interp) : set_prepend_stack (_prepend_stack st) st = st.
Proof. now destruct st. Qed.

(** X6.  Entering a command context pushes the path of the command, and
    leaving it restores the interpreter state as it was before. *)
Theorem enter_exit_restores (st : interp) (c : nat) (me : command_obj) :
  commands st !! c = Some me ->
  exists st1,
    Command.__enter__ c st = (Ok tt, st1)
    /\ _prepend_stack st1 = _prepend_stack st ++ [[_path me]]
    /\ Command.__exit__ c st1 = (Ok tt, st).
Proof.
  intros Hme. eexists. split; [| split].
  - unfold Command.__enter__. erewrite bind_ok; [| apply command_self; exact Hme].
    reflexivity.
  - reflexivity.
  - unfold Command.__exit__, bind, gets, modify. cbn.
    destruct (_prepend_stack st ++ [[_path me]]) eqn:E.
    + now destruct (_prepend_stack st).
    + rewrite <- E, removelast_snoc. cbn. destruct st; reflexivity.
Qed.

Lemma enter_exit_restores_witness :
  exists st1,
    Command.__enter__ 0 ls_created = (Ok tt, st1)
    /\ _prepend_stack st1 = _prepend_stack ls_created ++ [[_path ls_obj]]
    /\ Command.__exit__ 0 st1 = (Ok tt, ls_created).
Proof. apply (enter_exit_restores ls_created 0 ls_obj). reflexivity. Defined.

Lemma extract_default_modes (me : command_obj) :
  default_modes me ->
  Command._extract_call_args [] (_partial_call_args me) = (default_call_args, []).
Proof. intros [-> | ->]; [apply extract_nothing | apply extract_defaults]. Qed.

(** X7.  Inside the context of [ctx], a call of [target] spawns a process
    whose argv has the path of [ctx] before the path of [target], after the
    prefixes that were active already; the call leaves the stack as it is. *)
Theorem call_in_context (w : world) (st : interp) (ctx target : nat)
    (ctx_obj me : command_obj) (ws : list string) :
  commands st !! ctx = Some ctx_obj ->
  commands st !! target = Some me ->
  default_modes me ->
  forallb word ws = true ->
  exists st1,
    Command.__enter__ ctx st = (Ok tt, st1)
    /\ invoked st1
         (concat (_prepend_stack st) ++ [_path ctx_obj] ++ [_path me]
            ++ _partial_baked_args me ++ ws)
         (Command.__call__ w target (map VStr ws) [] st1).
Proof.
  intros Hctx Hme Hmodes Hws. eexists. split.
  - unfold Command.__enter__. erewrite bind_ok; [| apply command_self; exact Hctx].
    reflexivity.
  - match goal with |- invoked ?s _ _ => set (st1 := s) end.
    rewrite (call_words w st1 target me ws Hme (extract_default_modes me Hmodes) Hws).
    replace (concat (_prepend_stack st) ++ [_path ctx_obj] ++ [_path me]
               ++ _partial_baked_args me ++ ws)
      with (argv_of st1 me ws).
    + apply init_spawned.
    + unfold argv_of, st1. cbn. rewrite concat_app. cbn. now rewrite <- !app_assoc.
Qed.

Lemma call_in_context_witness :
  exists st1,
    Command.__enter__ 0 ls_created = (Ok tt, st1)
    /\ invoked st1 ["/bin/ls"; "/bin/ls"; "-l"]
         (Command.__call__ (exits "" "" 0) 0 [VStr "-l"] [] st1).
Proof.
  apply (call_in_context (exits "" "" 0) ls_created 0 0 ls_obj ls_obj ["-l"]);
    [reflexivity | reflexivity | left; reflexivity | reflexivity].
Defined.

Lemma extract_with (me : command_obj) :
  default_modes me ->
  Command._extract_call_args [("_with", VBool true)] (_partial_call_args me)
  = (with_call_args, []).
Proof. intros [-> | ->]; vm_compute; reflexivity. Qed.

(** A call in with-mode spawns nothing: it pushes its whole command line,
    active prefixes included, and returns a placeholder without process. *)
Lemma with_call_placeholder (w : world) (st : interp) (c : nat) (me : command_obj)
    (ws : list string) :
  commands st !! c = Some me ->
  default_modes me ->
  forallb word ws = true ->
  exists st' r,
    Command.__call__ w c (map VStr ws) [("_with", VBool true)] st
    = (Ok (length (invocations st)), st')
    /\ _prepend_stack st' = _prepend_stack st ++ [argv_of st me ws]
    /\ processes st' = processes st
    /\ invocations st' = invocations st ++ [r]
    /\ process r = None
    /\ command_ran r = PyString.join " " (argv_of st me ws)
    /\ call_args r = with_call_args.
Proof.
  intros Hme Hmodes Hws. unfold Command.__call__.
  erewrite bind_ok; [| apply command_self; exact Hme]; cbv beta iota.
  run_ok. rewrite (extract_with me Hmodes). run_ok.
  erewrite bind_ok with (a := (with_call_args, PIPE, None, map VStr ws));
    [| destruct ws; reflexivity]; cbv beta iota.
  erewrite bind_ok; [| apply compile_words; exact Hws]; cbv beta iota.
  run_ok. run_ok.
  eexists _, _. split; [reflexivity |].
  unfold argv_of. rewrite <- !app_assoc. repeat split.
Qed.

(** Leaving a with-invocation pops the stack, and only there is something
    to pop; any other invocation leaves the stack alone. *)
Lemma running_exit_pops (st : interp) (h : nat) (r : running_obj) (v : pyval) (b : bool) :
  invocations st !! h = Some r ->
  call_args r !! "with" = Some v -> PyVal.truth v = Some b ->
  RunningCommand.__exit__ h st
  = (Ok tt, if b then set_prepend_stack (removelast (_prepend_stack st)) st else st).
Proof.
  intros Hr Hw Tw. unfold RunningCommand.__exit__.
  erewrite bind_ok; [| unfold RunningCommand.self_, bind, gets; rewrite Hr; reflexivity];
    cbv beta iota.
  erewrite bind_ok; [| eapply getitem_truthy; [exact Hw | exact Tw]]; cbv beta iota.
  run_ok. destruct b; cbn [andb]; [| reflexivity].
  destruct (_prepend_stack st) eqn:E; [| reflexivity].
  unfold ret. f_equal. cbn. rewrite <- E. now rewrite set_prepend_stack_same.
Qed.

(** X8.  The scope of a with-call.  A call with [_with=True] spawns no
    process: it pushes its whole command line, active prefixes included,
    and returns a placeholder; entering and leaving the placeholder pops
    the line again, so that the prefix stack is as before the call. *)
Theorem with_call_scope (w : world) (st : interp) (c : nat) (me : command_obj)
    (ws : list string) :
  commands st !! c = Some me ->
  default_modes me ->
  forallb word ws = true ->
  exists h st1 st2,
    Command.__call__ w c (map VStr ws) [("_with", VBool true)] st = (Ok h, st1)
    /\ _prepend_stack st1 = _prepend_stack st ++ [argv_of st me ws]
    /\ processes st1 = processes st
    /\ (RunningCommand.__enter__ h;; RunningCommand.__exit__ h) st1 = (Ok tt, st2)
    /\ _prepend_stack st2 = _prepend_stack st
    /\ processes st2 = processes st.
Proof.
  intros Hme Hmodes Hws.
  destruct (with_call_placeholder w st c me ws Hme Hmodes Hws)
    as (st1 & r & Ecall & Hstack & Hproc & Hinv & _ & _ & Hca).
  eexists _, st1, _. split; [exact Ecall |].
  split; [exact Hstack |]. split; [exact Hproc |]. split.
  - run_ok.
    eapply (running_exit_pops st1 _ r (VBool true) true);
      [rewrite Hinv, lookup_app_r, Nat.sub_diag by lia; reflexivity
      | rewrite Hca; reflexivity | reflexivity].
  - cbn. rewrite Hstack, removelast_snoc. split; [reflexivity | exact Hproc].
Qed.

Lemma with_call_scope_witness :
  exists h st1 st2,
    Command.__call__ (exits "" "" 0) 0 [VStr "-l"] [("_with", VBool true)] ls_created
    = (Ok h, st1)
    /\ _prepend_stack st1 = _prepend_stack ls_created ++ [argv_of ls_created ls_obj ["-l"]]
    /\ processes st1 = processes ls_created
    /\ (RunningCommand.__enter__ h;; RunningCommand.__exit__ h) st1 = (Ok tt, st2)
    /\ _prepend_stack st2 = _prepend_stack ls_created
    /\ processes st2 = processes ls_created.
Proof.
  apply (with_call_scope (exits "" "" 0) ls_created 0 ls_obj ["-l"]);
    [reflexivity | left; reflexivity | reflexivity].
Defined.

(** ** Waiting for an invocation *)

Lemma running_self (h : nat) (r : running_obj) (st : interp) :
  invocations st !! h = Some r -> RunningCommand.self_ h st = (Ok r, st).
Proof. intros H. unfold RunningCommand.self_, bind, gets. now rewrite H. Qed.

(** [wait] on a background invocation whose process exits with a status
    that is not positive. *)
Lemma wait_background_run (w : world) (st : interp) (h : nat) (r : running_obj)
    (pid : nat) (p : popen_obj) :
  background st h r pid p ->
  (exit_code (os_run w pid (p_args p) None) <= 0)%Z ->
  RunningCommand.wait w h st = (Ok h, after_wait w st h pid p).
Proof.
  intros [Hr Hpid Hnc (v & Hbg & Tbg) Hp Hrun] Hle.
  unfold RunningCommand.wait. cbn [RunningCommand.wait_rec].
  erewrite bind_ok; [| eapply done_reaped; eauto]; cbv beta iota.
  rewrite Hrun.
  erewrite bind_ok; [| apply running_self; exact Hr]; cbv beta iota.
  rewrite Hnc, Hpid. run_ok.
  erewrite bind_ok; [| apply communicate_reaps; eauto]; cbv beta iota.
  run_ok.
  erewrite bind_ok; [| eapply wait_reaped;
    [cbn; rewrite list_lookup_alter_eq, Hp; reflexivity | reflexivity]]; cbv beta iota.
  assert (Hgt : (exit_code (os_run w pid (p_args p) None) >? 0)%Z = false)
    by (rewrite Z.gtb_ltb; apply Z.ltb_ge; lia).
  rewrite Hgt. reflexivity.
Qed.

Lemma after_wait_handle (w : world) (st : interp) (h : nat) (r : running_obj)
    (pid : nat) (p : popen_obj) :
  invocations st !! h = Some r ->
  invocations (after_wait w st h pid p) !! h
  = Some (RunningCommand.set_streams
            (Popen.captured (p_stdout p) (out_text (os_run w pid (p_args p) None)))
            (Popen.captured (p_stderr p) (err_text (os_run w pid (p_args p) None))) r).
Proof. intros Hr. unfold after_wait. cbn. now rewrite list_lookup_alter_eq, Hr. Qed.




(** X10.  When the standard output of a background invocation is not a
    pipe, [wait] stores [None] as the aggregate, and reading [stdout]
    raises [TypeError] after the process has been reaped. *)
Theorem background_stdout_redirected (w : world) (st : interp) (h : nat) (r : running_obj)
    (pid : nat) (p : popen_obj) :
  background st h r pid p ->
  (exit_code (os_run w pid (p_args p) None) <= 0)%Z ->
  p_stdout p <> PIPE ->
  RunningCommand.stdout w h st
  = (Raise (Builtin Cls.TypeError "can only join an iterable"), after_wait w st h pid p).
Proof.
  intros Hb Hle Hpipe.
  pose proof (wait_background_run w st h r pid p Hb Hle) as Hwait.
  destruct Hb as [Hr Hpid Hnc (v & Hbg & Tbg) Hp Hrun].
  pose proof (after_wait_handle w st h r pid p Hr) as Hr'.
  unfold RunningCommand.stdout, RunningCommand.stream_property.
  erewrite bind_ok; [| apply running_self; exact Hr]; cbv beta iota.
  erewrite bind_ok; [| eapply getitem_truthy; [exact Hbg | exact Tbg]]; cbv beta iota.
  erewrite bind_ok; [| unfold when_; erewrite bind_ok; [| exact Hwait]; reflexivity];
    cbv beta iota.
  erewrite bind_ok; [| apply running_self; exact Hr']; cbv beta iota.
  cbn [_stdout RunningCommand.set_streams].
  destruct (p_stdout p); try reflexivity. contradiction.
Qed.

Lemma background_stdout_redirected_witness :
  exists st',
    RunningCommand.stdout (exits "out" "err" 0) 0 (backgrounded_to_file (exits "out" "err" 0))
    = (Raise (Builtin Cls.TypeError "can only join an iterable"), st').
Proof.
  eexists.
  eapply (background_stdout_redirected (exits "out" "err" 0)
            (backgrounded_to_file (exits "out" "err" 0)) 0 _ 0 _).
  - split; [reflexivity | reflexivity | reflexivity
           | exists (VBool true); split; reflexivity | reflexivity | reflexivity].
  - cbn. lia.
  - discriminate.
Defined.

(** X11.  An invocation without process, as a with-call returns it, cannot
    be waited for: [wait] raises [AttributeError] and changes nothing. *)
Theorem placeholder_wait_raises (w : world) (st : interp) (h : nat) (r : running_obj) :
  invocations st !! h = Some r -> process r = None ->
  RunningCommand.wait w h st
  = (Raise (Builtin Cls.AttributeError
              "'NoneType' object has no attribute 'returncode'"), st).
Proof.
  intros Hr Hnone.
  unfold RunningCommand.wait. cbn [RunningCommand.wait_rec].
  erewrite bind_raise; [reflexivity |].
  unfold RunningCommand.done.
  erewrite bind_ok; [| apply running_self; exact Hr]; cbv beta iota.
  now rewrite Hnone.
Qed.

Lemma placeholder_wait_raises_witness :
  RunningCommand.wait (exits "" "" 0) 0 (placeholder (exits "" "" 0))
  = (Raise (Builtin Cls.AttributeError
              "'NoneType' object has no attribute 'returncode'"),
     placeholder (exits "" "" 0)).
Proof.
  eapply (placeholder_wait_raises (exits "" "" 0) (placeholder (exits "" "" 0)) 0 _);
    reflexivity.
Defined.

(** X12.  After a blocking invocation has returned, waiting for it returns at
    once and its streams read as captured, all without a change of state. *)
Theorem blocking_then_wait (w : world) (st : interp) (cmd : string)
    (pid : nat) (p : popen_obj) (ca : gmap string pyval) (stdin : option string) :
  blocking st pid p ca ->
  (exit_code (os_run w pid (p_args p) stdin) <= 0)%Z ->
  let report := os_run w pid (p_args p) stdin in
  exists h st',
    RunningCommand.__init__ w cmd (Some pid) ca stdin VNone VNone st = (Ok h, st')
    /\ RunningCommand.wait w h st' = (Ok h, st')
    /\ RunningCommand.stdout w h st' = (Ok (kept (p_stdout p) (out_text report)), st')
    /\ RunningCommand.stderr w h st' = (Ok (kept (p_stderr p) (err_text report)), st').
Proof.
  intros Hb Hle report.
  destruct (init_blocking w st cmd pid p ca stdin Hb) as [Hinit _].
  specialize (Hinit Hle). cbv zeta in Hinit. fold report in Hinit.
  destruct Hb as [Hp Hrun (vbg & Hbg & Tbg) _].
  eexists _, _. split; [exact Hinit |].
  match goal with |- context [ after_blocking_init ?a ?b ?c ?d ?e ?f ?g ] =>
    set (s3 := after_blocking_init a b c d e f g) end.
  assert (Hh : invocations s3 !! length (invocations st)
               = Some {| command_ran := cmd; process := Some pid;
                         _stdout := VList [VStr (kept (p_stdout p) (out_text report))];
                         _stderr := VList [VStr (kept (p_stderr p) (err_text report))];
                         _stdout_thread := None; _stderr_thread := None;
                         call_args := ca; is_collecting_streams := false |}).
  { subst s3. unfold after_blocking_init. cbn.
    rewrite list_lookup_alter_eq, lookup_app_r, Nat.sub_diag by lia. reflexivity. }
  assert (Hp' : processes s3 !! pid
                = Some (Popen.set_returncode (exit_code report) p)).
  { subst s3. unfold after_blocking_init. cbn. now rewrite list_lookup_alter_eq, Hp. }
  split; [| split].
  - eapply wait_rec_done; [exact Hh | reflexivity | exact Hp' | reflexivity].
  - eapply stream_property_foreground; [exact Hh | exact Hbg | exact Tbg | reflexivity].
  - eapply stream_property_foreground; [exact Hh | exact Hbg | exact Tbg | reflexivity].
Qed.

Lemma blocking_then_wait_witness :
  exists h st',
    RunningCommand.__init__ (exits "out" "err" 0) "/bin/sleep 60" (Some 0) default_call_args
      None VNone VNone one_process = (Ok h, st')
    /\ RunningCommand.wait (exits "out" "err" 0) h st' = (Ok h, st')
    /\ RunningCommand.stdout (exits "out" "err" 0) h st' = (Ok "out", st')
    /\ RunningCommand.stderr (exits "out" "err" 0) h st' = (Ok "err", st').
Proof.
  apply (blocking_then_wait (exits "out" "err" 0) one_process "/bin/sleep 60" 0
           sleep_process default_call_args None).
  - exact sleep_is_blocking.
  - cbn. lia.
Defined.

(** ** What the collectors aggregate *)

Section Aggregation.
Import Collector.
#[local] Arguments String.append : simpl nomatch.













(** A callback that raises ends the collection of its stream: the unit it
    was given is aggregated, the rest is never read. *)
Lemma raising_callback_leaves_rest :
  exists s,
    run [Main; Out; Out; Out; Out; Err; Err; Err; Err; Err]
      (spawn "ab" "c" (Some (raises_on "a")) None 0 0) = Some s
    /\ finished s = true
    /\ aggregated (stdout_thread s) = "a"
    /\ stream (stdout_thread s) = "b".
Proof. eexists. split; [vm_compute; reflexivity |]. repeat split; vm_compute; reflexivity. Qed.

End Aggregation.

Lemma exit_check_at_most_once_witness :
  exists s,
    Collector.run serial_schedule (Collector.spawn "" "" None None 1 2) = Some s
    /\ Collector.finished s = true
    /\ Collector.exit_checks s = 1
    /\ Collector.failures s = [2%Z]
    /\ Collector.exit_checks s <= 1.
Proof.
  eexists. split; [vm_compute; reflexivity |].
  split; [vm_compute; reflexivity |].
  split; [vm_compute; reflexivity |]. split; [vm_compute; reflexivity |].
  eapply (exit_check_at_most_once serial_schedule "" "" None None 1 2).
  vm_compute. reflexivity.
Defined.

(** ** Program resolution *)

Section Resolution.
Import PyString.
Variable hs : host.
#[local] Arguments String.append : simpl nomatch.

Lemma cut_head (p : string) :
  String.eqb (fst (posixpath.cut p)) "" = negb (contains "/" p).
Proof.
  induction p as [|c p IH]; [reflexivity |].
  cbn [posixpath.cut contains]. destruct (posixpath.cut p) as [h t]. cbn [fst] in *.
  rewrite (Ascii.eqb_sym "/" c).
  destruct (String.eqb h "") eqn:Eh.
  - symmetry in IH. apply negb_true_iff in IH. rewrite IH, orb_false_r.
    destruct (Ascii.eqb c "/"); reflexivity.
  - symmetry in IH. apply negb_false_iff in IH. rewrite IH, orb_true_r. reflexivity.
Qed.

Lemma rstrip_empty (h : string) :
  posixpath.rstrip "/" h = "" -> posixpath.all_slashes h = true.
Proof.
  induction h as [|c h IH]; [reflexivity |].
  cbn [posixpath.rstrip posixpath.all_slashes].
  destruct (String.eqb (posixpath.rstrip "/" h) "") eqn:E; cbn [andb].
  - apply String.eqb_eq in E. destruct (Ascii.eqb c "/"); [intros _; now apply IH | discriminate].
  - discriminate.
Qed.

(** the head of [os.path.split] is empty exactly for a name without slash *)
Lemma split_head (p : string) :
  String.eqb (fst (posixpath.split p)) "" = negb (contains "/" p).
Proof.
  rewrite <- cut_head. unfold posixpath.split.
  destruct (posixpath.cut p) as [h t]. cbn [fst].
  destruct (String.eqb h "") eqn:Eh; cbn [negb andb]; [cbn; exact Eh |].
  destruct (posixpath.all_slashes h) eqn:Ea; cbn [negb fst]; [exact Eh |].
  destruct (String.eqb (posixpath.rstrip "/" h) "") eqn:Er; [| reflexivity].
  apply String.eqb_eq in Er. apply rstrip_empty in Er. congruence.
Qed.

(** X14.  A program named with a directory is taken as it is: found if it
    is executable, and the search path plays no part. *)
Theorem which_with_directory (program : string) :
  contains "/" program = true ->
  which hs program = Ok (if is_exe hs program then Some program else None).
Proof.
  intros Hslash. unfold which. pose proof (split_head program) as Hh.
  destruct (posixpath.split program) as [fpath fname]. cbn [fst] in Hh.
  rewrite Hh, Hslash. cbn [negb]. now destruct (is_exe hs program).
Qed.

Lemma split_on_plain (d : string) :
  contains ":" d = false -> split_on ":" d = [d].
Proof.
  induction d as [|c d IH]; [reflexivity |].
  cbn [contains split_on]. rewrite (Ascii.eqb_sym ":" c).
  intros H. apply orb_false_iff in H as [Hc Hd]. rewrite Hc, (IH Hd). reflexivity.
Qed.

Lemma split_on_app (d rest : string) :
  contains ":" d = false ->
  split_on ":" (d +:+ String ":" rest) = d :: split_on ":" rest.
Proof.
  induction d as [|c d IH]; [reflexivity |].
  cbn [contains]. rewrite (Ascii.eqb_sym ":" c).
  intros H. apply orb_false_iff in H as [Hc Hd].
  change (String c d +:+ String ":" rest) with (String c (d +:+ String ":" rest)).
  cbn [split_on]. rewrite Hc, (IH Hd). reflexivity.
Qed.

(** splitting the search path gives back its directories *)
Lemma split_on_join (dirs : list string) :
  dirs <> [] -> forallb (fun d => negb (contains ":" d)) dirs = true ->
  split_on ":" (join ":" dirs) = dirs.
Proof.
  induction dirs as [|d dirs IH]; [congruence |]. intros _ Hall.
  cbn [forallb] in Hall. apply andb_true_iff in Hall as [Hd Hall].
  apply negb_true_iff in Hd.
  destruct dirs as [|d2 dirs]; [now apply split_on_plain |].
  change (join ":" (d :: d2 :: dirs)) with (d +:+ String ":" (join ":" (d2 :: dirs))).
  rewrite (split_on_app _ _ Hd), IH; [reflexivity | discriminate | exact Hall].
Qed.

(** X15.  A bare name is looked up in the directories of [PATH], in their
    order, and the first executable candidate wins. *)
Theorem which_searches_path (program : string) (dirs : list string) :
  contains "/" program = false ->
  environ hs !! "PATH" = Some (join ":" dirs) ->
  dirs <> [] -> forallb (fun d => negb (contains ":" d)) dirs = true ->
  which hs program
  = Ok (List.find (is_exe hs) (map (fun d => posixpath.join d program) dirs)).
Proof.
  intros Hslash Hpath Hne Hdirs. unfold which. pose proof (split_head program) as Hh.
  destruct (posixpath.split program) as [fpath fname]. cbn [fst] in Hh.
  rewrite Hh, Hslash. cbn [negb]. rewrite Hpath, (split_on_join dirs Hne Hdirs).
  reflexivity.
Qed.

(** Without [PATH] in the environment the lookup of a bare name raises
    [KeyError]. *)
Lemma which_without_path (program : string) :
  contains "/" program = false ->
  environ hs !! "PATH" = None ->
  which hs program = Raise (Builtin Cls.KeyError "PATH").
Proof.
  intros Hslash Hpath. unfold which. pose proof (split_head program) as Hh.
  destruct (posixpath.split program) as [fpath fname]. cbn [fst] in Hh.
  now rewrite Hh, Hslash, Hpath.
Qed.

(** Whatever [which] returns is executable. *)
Lemma which_sound (program p : string) :
  which hs program = Ok (Some p) -> is_exe hs p = true.
Proof.
  unfold which. destruct (posixpath.split program) as [fpath fname].
  destruct (negb (String.eqb fpath "")).
  - destruct (is_exe hs program) eqn:E; [intros [= <-]; exact E | discriminate].
  - destruct (environ hs !! "PATH"); [| discriminate].
    intros [= H]. now apply find_some in H.
Qed.

(** [resolve_program] returns only executable, non-empty paths. *)
Lemma resolve_program_executable (program p : string) :
  resolve_program hs program = Ok (Some p) -> is_exe hs p = true /\ p <> "".
Proof.
  unfold resolve_program.
  destruct (which hs program) as [path | |] eqn:E1; [| discriminate | discriminate].
  destruct (not_path path) eqn:N1.
  - destruct (contains "_" program); [| discriminate].
    destruct (which hs (replace "_" "-" program)) as [path2 | |] eqn:E2;
      [| discriminate | discriminate].
    destruct (not_path path2) eqn:N2; [discriminate |].
    intros [= ->]. split; [now apply which_sound in E2 |].
    intros ->. discriminate.
  - intros [= ->]. split; [now apply which_sound in E1 |].
    intros ->. discriminate.
Qed.

(** X16.  The dash fallback: when the name as given is not found, a name
    with underscores is looked up again with dashes in their place, and a
    name without underscore is not found at all. *)
Theorem resolve_program_dashes (program : string) :
  which hs program = Ok None ->
  resolve_program hs program
  = if contains "_" program then
      match which hs (replace "_" "-" program) with
      | Ok (Some "") => Ok None
      | other => other
      end
    else Ok None.
Proof.
  intros Hw. unfold resolve_program. rewrite Hw. cbn [not_path].
  destruct (contains "_" program); [| reflexivity].
  destruct (which hs (replace "_" "-" program)) as [[p |] | |]; try reflexivity.
  cbn [not_path]. destruct p; reflexivity.
Qed.

End Resolution.

Lemma which_with_directory_witness : which shell_host "/bin/ls" = Ok (Some "/bin/ls").
Proof. apply (which_with_directory shell_host "/bin/ls"). reflexivity. Defined.

Lemma which_searches_path_witness : which shell_host "ls" = Ok (Some "/bin/ls").
Proof.
  apply (which_searches_path shell_host "ls" ["/usr/local/bin"; "/usr/bin"; "/bin"]);
    [reflexivity | reflexivity | discriminate | reflexivity].
Defined.

Lemma resolve_program_dashes_witness :
  resolve_program shell_host "apt_get" = Ok (Some "/usr/bin/apt-get").
Proof. apply (resolve_program_dashes shell_host "apt_get"). reflexivity. Defined.

(** X17.  A command created from a name runs the resolved path: the
    command holds the path [resolve_program] gives, nothing is spawned by
    creating it, and calling it spawns a process whose argv is the active
    prefixes, that path, then the arguments. *)
Theorem create_resolves (w : world) (hs : host) (program path : string) (st : interp)
    (ws : list string) :
  resolve_program hs program = Ok (Some path) ->
  forallb word ws = true ->
  exists c st1,
    Command._create hs program st = (Ok c, st1)
    /\ processes st1 = processes st
    /\ commands st1 !! c = Some (created_obj path)
    /\ invoked st1 (concat (_prepend_stack st) ++ [path] ++ ws)
         (Command.__call__ w c (map VStr ws) [] st1).
Proof.
  intros Hres Hws.
  destruct (resolve_program_executable hs program path Hres) as [_ Hne].
  unfold Command._create. rewrite Hres.
  assert (Hnp : not_path (Some path) = false)
    by (cbn; destruct path; [congruence | reflexivity]).
  rewrite Hnp.
  set (me := created_obj path).
  set (st1 := set_commands (commands st ++ [me]) st).
  exists (length (commands st)), st1.
  assert (Hc : commands st1 !! length (commands st) = Some me)
    by (cbn; rewrite lookup_app_r, Nat.sub_diag by lia; reflexivity).
  split; [reflexivity |]. split; [reflexivity |]. split; [exact Hc |].
  pose proof (call_words w st1 _ me ws Hc extract_nothing Hws) as Hcall.
  pose proof (init_spawned w st1 (argv_of st1 me ws)) as Hinv.
  rewrite <- Hcall in Hinv. exact Hinv.
Qed.

(** [which] returns, or raises the [KeyError] of a missing [PATH] *)
Lemma which_outcome (hs : host) (program : string) :
  which hs program = Raise (Builtin Cls.KeyError "PATH")
  \/ exists r, which hs program = Ok r.
Proof.
  unfold which. destruct (posixpath.split program) as [fpath fname].
  destruct (negb (String.eqb fpath "")).
  - right. destruct (is_exe hs program); eexists; reflexivity.
  - destruct (environ hs !! "PATH"); [right; eexists; reflexivity | now left].
Qed.

(** X18.  [Command._create] either registers a command whose path is
    executable, touching nothing but the command table, or raises and leaves
    the state as it was: [CommandNotFound] with the name as given, or the
    [KeyError] of a missing [PATH]. *)
Theorem create_sound (hs : host) (program : string) (st : interp) :
  match Command._create hs program st with
  | (Ok c, st1) =>
      exists path,
        is_exe hs path = true
        /\ c = length (commands st)
        /\ st1 = set_commands (commands st ++ [created_obj path]) st
  | (Raise e, st1) =>
      st1 = st
      /\ (e = Builtin Cls.CommandNotFound program \/ e = Builtin Cls.KeyError "PATH")
  | (Outside, _) => False
  end.
Proof.
  unfold Command._create.
  destruct (resolve_program hs program) as [[path |] | e |] eqn:Hres.
  - destruct (resolve_program_executable hs program path Hres) as [Hexe Hne].
    destruct path as [|c path]; [congruence |]. cbn [not_path].
    exists (String c path). repeat split. exact Hexe.
  - cbn. split; [reflexivity | now left].
  - split; [reflexivity | right].
    unfold resolve_program in Hres.
    destruct (which_outcome hs program) as [E1 | [r1 E1]]; rewrite E1 in Hres;
      [congruence |].
    destruct (not_path r1); [| congruence].
    destruct (PyString.contains "_" program); [| congruence].
    destruct (which_outcome hs (PyString.replace "_" "-" program)) as [E2 | [r2 E2]];
      rewrite E2 in Hres; [congruence |].
    destruct (not_path r2); congruence.
  - unfold resolve_program in Hres.
    destruct (which_outcome hs program) as [E1 | [r1 E1]]; rewrite E1 in Hres;
      [congruence |].
    destruct (not_path r1); [| congruence].
    destruct (PyString.contains "_" program); [| congruence].
    destruct (which_outcome hs (PyString.replace "_" "-" program)) as [E2 | [r2 E2]];
      rewrite E2 in Hres; [congruence |].
    destruct (not_path r2); congruence.
Qed.

Lemma create_resolves_witness :
  exists c st1,
    Command._create shell_host "apt_get" initial_interp = (Ok c, st1)
    /\ processes st1 = processes initial_interp
    /\ commands st1 !! c = Some (created_obj "/usr/bin/apt-get")
    /\ invoked st1 (concat (_prepend_stack initial_interp) ++ ["/usr/bin/apt-get"]
                      ++ ["install"])
         (Command.__call__ (exits "" "" 0) c (map VStr ["install"]) [] st1).
Proof.
  apply (create_resolves (exits "" "" 0) shell_host "apt_get" "/usr/bin/apt-get"
           initial_interp ["install"]); reflexivity.
Defined.

(** ** Names looked up in the environment *)

Section Names.
Import Environment.
#[local] Arguments String.append : simpl nomatch.

Lemma digits_of_uint (d : Decimal.uint) :
  digits (NilEmpty.string_of_uint d) = NilEmpty.string_of_uint d.
Proof. induction d; cbn; now f_equal. Qed.

Lemma endswith_app (c : ascii) (a b : string) :
  b <> "" -> posixpath.endswith c (a +:+ b) = posixpath.endswith c b.
Proof.
  intros Hb. induction a as [|d a IH]; [reflexivity |].
  change (String d a +:+ b) with (String d (a +:+ b)).
  cbn [posixpath.endswith]. destruct (a +:+ b) eqn:E; [| exact IH].
  destruct a; [cbn in E; congruence | discriminate].
Qed.

Lemma endswith_uint (d : Decimal.uint) :
  posixpath.endswith "_" (NilEmpty.string_of_uint d) = false.
Proof.
  induction d; [reflexivity | ..];
    cbn [NilEmpty.string_of_uint posixpath.endswith];
    destruct (NilEmpty.string_of_uint d); (reflexivity || exact IHd).
Qed.

(** the decimal numeral of a status that is not negative *)
Lemma of_Z_numeral (n : Z) :
  (0 <= n)%Z ->
  exists d, PyString.of_Z n = NilEmpty.string_of_uint d
            /\ d <> Decimal.Nil /\ Z.of_uint d = n.
Proof.
  intros Hn. unfold PyString.of_Z. pose proof (DecimalZ.of_to n) as Hof.
  destruct n as [|p|p]; [| | lia].
  - exists (Decimal.D0 Decimal.Nil). repeat split. discriminate.
  - exists (Pos.to_uint p). cbn [Z.to_int NilZero.string_of_int] in *.
    pose proof (Unsigned.to_uint_nonnil p) as Hnil.
    split; [| split; [exact Hnil | exact Hof]].
    unfold NilZero.string_of_uint. destruct (Pos.to_uint p); [congruence | reflexivity ..].
Qed.

(** The pattern [ErrorReturnCode_(\d+)] reads the status back from the name
    [get_rc_exc] gives to a class. *)
Lemma regex_of_name (n : Z) :
  (0 <= n)%Z -> rc_exc_regex (rc_class_name n) = Some n.
Proof.
  intros Hn. destruct (of_Z_numeral n Hn) as (d & Hd & Hnil & Hz).
  unfold rc_exc_regex, rc_class_name. rewrite Hd.
  change (strip_prefix "ErrorReturnCode_" ("ErrorReturnCode_" +:+ NilEmpty.string_of_uint d))
    with (Some (NilEmpty.string_of_uint d)).
  cbv beta iota. rewrite digits_of_uint.
  pose proof (NilZero.usu d Hnil) as Hu. unfold NilZero.string_of_uint in Hu.
  assert (Hs : NilEmpty.string_of_uint d = NilZero.string_of_uint d)
    by (unfold NilZero.string_of_uint; destruct d; [congruence | reflexivity ..]).
  rewrite Hs, (NilZero.usu d Hnil), Hz. reflexivity.
Qed.

Lemma name_no_underscore (n : Z) :
  (0 <= n)%Z -> posixpath.endswith "_" (rc_class_name n) = false.
Proof.
  intros Hn. destruct (of_Z_numeral n Hn) as (d & Hd & Hnil & _).
  unfold rc_class_name. rewrite Hd, endswith_app; [apply endswith_uint |].
  destruct d; [congruence | discriminate ..].
Qed.

(** a lookup of a class name reads the cache under the name, and calls
    [get_rc_exc] when the name is not there *)
Lemma missing_rc_class (hs : host) (n : Z) (st : interp) :
  (0 <= n)%Z ->
  __missing__ hs (rc_class_name n) st
  = match rc_exc_cache st !! KStr (rc_class_name n) with
    | Some exc => (Ok (AClass exc), st)
    | None => (exc ← get_rc_exc n; ret (AClass exc)) st
    end.
Proof.
  intros Hn. unfold __missing__.
  change (String.eqb (rc_class_name n) "__all__") with false. cbv iota.
  rewrite (name_no_underscore n Hn). cbn [negb].
  unfold bind at 1, gets.
  destruct (rc_exc_cache st !! KStr (rc_class_name n)); [reflexivity |].
  now rewrite (regex_of_name n Hn).
Qed.

Lemma new_rc_class_cached (n : Z) (st : interp) :
  rc_exc_cache (with_new_rc_class n st) !! KStr (rc_class_name n)
  = Some (length (classes st)).
Proof. unfold with_new_rc_class. cbn. apply lookup_insert_eq. Qed.

(** X19.  A failure class name looked up through the environment resolves
    to a class, and to the same class on every lookup that follows
    directly, which changes nothing.  It is [get_rc_exc] that binds the
    name anew: after a call of [get_rc_exc] with that code, as a failure
    with that code makes it, the name resolves to the class this call has
    created, which is another class. *)
Theorem missing_rc_class_until_rebound (hs : host) (n : Z) (st : interp) :
  (0 <= n)%Z ->
  cache_holds_names st ->
  cached_classes_exist st ->
  exists c st1,
    __missing__ hs (rc_class_name n) st = (Ok (AClass c), st1)
    /\ (forall hs', __missing__ hs' (rc_class_name n) st1 = (Ok (AClass c), st1))
    /\ exists c' st2,
         get_rc_exc n st1 = (Ok c', st2)
         /\ c' <> c
         /\ forall hs', __missing__ hs' (rc_class_name n) st2 = (Ok (AClass c'), st2).
Proof.
  intros Hn Hst Hex.
  destruct (rc_exc_cache st !! KStr (rc_class_name n)) as [c |] eqn:Hc.
  - exists c, st. split; [rewrite (missing_rc_class hs n st Hn), Hc; reflexivity |].
    split; [intros hs'; rewrite (missing_rc_class hs' n st Hn), Hc; reflexivity |].
    destruct (get_rc_exc_creates n st Hst) as [Hget _].
    exists (length (classes st)), (with_new_rc_class n st).
    split; [exact Hget |]. split; [specialize (Hex _ _ Hc); lia |].
    intros hs'. now rewrite (missing_rc_class hs' n _ Hn), new_rc_class_cached.
  - destruct (get_rc_exc_creates n st Hst) as [Hget Hst1].
    exists (length (classes st)), (with_new_rc_class n st).
    split; [rewrite (missing_rc_class hs n st Hn), Hc; unfold bind; rewrite Hget;
            reflexivity |].
    split; [intros hs'; now rewrite (missing_rc_class hs' n _ Hn), new_rc_class_cached |].
    destruct (get_rc_exc_creates n _ Hst1) as [Hget1 _].
    exists (length (classes (with_new_rc_class n st))),
           (with_new_rc_class n (with_new_rc_class n st)).
    split; [exact Hget1 |]. split; [rewrite new_rc_class_length; lia |].
    intros hs'. now rewrite (missing_rc_class hs' n _ Hn), new_rc_class_cached.
Qed.

Lemma rstrip_snoc (c : ascii) (s : string) :
  posixpath.rstrip c (s +:+ String c "") = posixpath.rstrip c s.
Proof.
  induction s as [|d s IH].
  - cbn. now rewrite Ascii.eqb_refl.
  - change (String d s +:+ String c "") with (String d (s +:+ String c "")).
    cbn [posixpath.rstrip]. now rewrite IH.
Qed.

Lemma rstrip_id (c : ascii) (s : string) :
  posixpath.endswith c s = false -> posixpath.rstrip c s = s.
Proof.
  induction s as [|d s IH]; [reflexivity |].
  cbn [posixpath.endswith posixpath.rstrip]. destruct s as [|e s].
  - intros H. cbn. rewrite Ascii.eqb_sym, H. reflexivity.
  - intros H. rewrite (IH H). reflexivity.
Qed.

Lemma endswith_snoc (c : ascii) (s : string) :
  posixpath.endswith c (s +:+ String c "") = true.
Proof. rewrite endswith_app by discriminate. cbn. apply Ascii.eqb_refl. Qed.

Lemma startswith_char (a c : ascii) (s : string) :
  String.prefix (String a "") (String c s) = Ascii.eqb a c.
Proof.
  change (String.prefix (String a "") (String c s))
    with (if ascii_dec a c then String.prefix "" s else false).
  destruct (ascii_dec a c) as [-> | N].
  - rewrite Ascii.eqb_refl. now destruct s.
  - symmetry. now apply Ascii.eqb_neq.
Qed.

(** X20.  A trailing underscore skips the Python lookups: [name_] goes straight
    to the environment variables, the custom builtins and the programs
    under [name], whatever the failure-class cache and the builtins hold. *)
Theorem missing_trailing_underscore (hs : host) (name : string) (st : interp) :
  name <> "" ->
  String.prefix "_" name = false ->
  posixpath.endswith "_" name = false ->
  __missing__ hs (name +:+ "_") st = external hs name st.
Proof.
  intros Hne Hpre Hend. unfold __missing__.
  destruct name as [|c name]; [congruence |].
  change (String c name +:+ "_") with (String c (name +:+ "_")).
  rewrite startswith_char in Hpre.
  assert (Hc : Ascii.eqb c "_" = false) by now rewrite Ascii.eqb_sym.
  cbn [String.eqb]. rewrite Hc.
  change (String c (name +:+ "_")) with (String c name +:+ "_").
  rewrite endswith_snoc. cbn [negb].
  change (String c name +:+ "_") with (String c (name +:+ "_")).
  rewrite startswith_char, Hpre.
  change (String c (name +:+ "_")) with (String c name +:+ "_").
  cbn [negb]. now rewrite rstrip_snoc, rstrip_id.
Qed.

End Names.

Lemma missing_rc_class_until_rebound_witness :
  exists c st1,
    Environment.__missing__ shell_host (rc_class_name 3) initial_interp
    = (Ok (Environment.AClass c), st1)
    /\ (forall hs', Environment.__missing__ hs' (rc_class_name 3) st1
                    = (Ok (Environment.AClass c), st1))
    /\ exists c' st2,
         get_rc_exc 3 st1 = (Ok c', st2)
         /\ c' <> c
         /\ forall hs', Environment.__missing__ hs' (rc_class_name 3) st2
                        = (Ok (Environment.AClass c'), st2).
Proof.
  apply missing_rc_class_until_rebound;
    [lia | exact initial_cache_holds_names | intros k c H; discriminate H].
Defined.

Lemma missing_trailing_underscore_witness :
  Environment.__missing__ shell_host "id_" initial_interp
  = Environment.external shell_host "id" initial_interp.
Proof.
  apply (missing_trailing_underscore shell_host "id" initial_interp);
    [discriminate | reflexivity | reflexivity].
Defined.

(** ** The printed form of a command *)

(** X21.  The printed form of a command is its command line: split by the
    shell rules it gives back the path and the baked arguments. *)
Theorem unicode_resplits (st : interp) (self : nat) (me : command_obj) :
  commands st !! self = Some me ->
  forallb word (_path me :: _partial_baked_args me) = true ->
  exists text,
    Command.__unicode__ self st = (Ok text, st)
    /\ shlex.split text = Some (_path me :: _partial_baked_args me).
Proof.
  intros Hme Hws. exists (PyString.join " " (_path me :: _partial_baked_args me)).
  split; [| now apply split_words].
  unfold Command.__unicode__.
  erewrite bind_ok; [| apply command_self; exact Hme]; cbv beta iota zeta.
  destruct (_partial_baked_args me) as [|b bs];
    [cbn; unfold ret; now rewrite append_empty_r |].
  cbn [forallb] in Hws. apply andb_true_iff in Hws as [_ Hws].
  apply andb_true_iff in Hws as [Hb _].
  unfold word in Hb. apply andb_true_iff in Hb as [Hb _].
  destruct b as [|c b]; [discriminate |]. destruct bs; reflexivity.
Qed.

Lemma unicode_resplits_witness :
  exists text,
    Command.__unicode__ 1 long_baked = (Ok text, long_baked)
    /\ shlex.split text = Some ["/bin/ls"; "-l"].
Proof. apply (unicode_resplits long_baked 1 long_obj); reflexivity. Defined.

(** ** Piping by composition *)

Section Pipeline.
Variable w : world.

Lemma call_composed (st : interp) (self : nat) (me : command_obj) (first : nat)
    (text : string) (ws : list string) :
  commands st !! self = Some me ->
  Command._extract_call_args [] (_partial_call_args me) = (default_call_args, []) ->
  finished_with st first text ->
  forallb word ws = true ->
  Command.__call__ w self (VRunning first :: map VStr ws) [] st
  = RunningCommand.__init__ w (PyString.join " " (argv_of st me ws))
      (Some (length (processes st))) default_call_args (Some text) VNone VNone
      (spawned st (argv_of st me ws)).
Proof.
  intros Hme Hex (r & Hr & Hbg & Hout) Hws. unfold Command.__call__.
  erewrite bind_ok; [| apply command_self; exact Hme]; cbv beta iota.
  run_ok. rewrite Hex. run_ok.
  erewrite bind_ok with (a := (default_call_args, PIPE, Some text, map VStr ws)).
  2:{ erewrite bind_ok;
        [| unfold RunningCommand.self_, bind, gets; rewrite Hr; reflexivity].
      cbv beta iota.
      erewrite bind_ok; [| eapply getitem_truthy; [exact Hbg | reflexivity]].
      cbv beta iota.
      erewrite bind_ok;
        [| eapply (stream_property_foreground _ _ first r); [exact Hr | exact Hbg | reflexivity | exact Hout]].
      reflexivity. }
  cbv beta iota.
  erewrite bind_ok; [| apply compile_words; exact Hws]; cbv beta iota.
  do 6 run_ok.
  unfold argv_of, spawned. rewrite <- !app_assoc. reflexivity.
Qed.

(** X22.  Piping by composition.  A command called with a finished foreground
    invocation as its first argument is spawned with the remaining
    arguments only, and is fed the standard output of that invocation: when
    it exits with a status that is not positive, its own standard output is
    what the process writes on that input. *)
Theorem call_pipes_stdout (st : interp) (self : nat) (me : command_obj) (first : nat)
    (text : string) (ws : list string) :
  commands st !! self = Some me ->
  Command._extract_call_args [] (_partial_call_args me) = (default_call_args, []) ->
  finished_with st first text ->
  forallb word ws = true ->
  let pid := length (processes st) in
  let report := os_run w pid (argv_of st me ws) (Some text) in
  (exit_code report <= 0)%Z ->
  exists st1,
    Command.__call__ w self (VRunning first :: map VStr ws) [] st
    = (Ok (length (invocations st)), st1)
    /\ (exists p, processes st1 !! pid = Some p /\ p_args p = argv_of st me ws
                  /\ returncode p = Some (exit_code report))
    /\ RunningCommand.stdout w (length (invocations st)) st1 = (Ok (out_text report), st1).
Proof.
  intros Hme Hex Hfirst Hws pid report Hrc.
  rewrite (call_composed st self me first text ws Hme Hex Hfirst Hws).
  pose proof (init_blocking w _ (PyString.join " " (argv_of st me ws)) _ _ _ (Some text)
                (spawned_blocking st (argv_of st me ws))) as [Hle _].
  cbv zeta in Hle. specialize (Hle Hrc). eexists. split; [exact Hle |]. split.
  - eexists. split; [| split].
    + unfold after_blocking_init, spawned. cbn.
      rewrite list_lookup_alter_eq, lookup_app_r, Nat.sub_diag by lia. reflexivity.
    + reflexivity.
    + reflexivity.
  - eapply stream_property_foreground.
    + unfold after_blocking_init, spawned. cbn.
      rewrite list_lookup_alter_eq, lookup_app_r, Nat.sub_diag by lia. reflexivity.
    + reflexivity.
    + reflexivity.
    + reflexivity.
Qed.

(** X23.  A background producer puts the consumer in the background: the
    consumer is spawned reading the producer's output descriptor, nothing is
    waited for, and the handle it returns is a background invocation. *)
Theorem call_pipes_background (st : interp) (self : nat) (me : command_obj)
    (first producer : nat) (ws : list string) :
  commands st !! self = Some me ->
  Command._extract_call_args [] (_partial_call_args me) = (default_call_args, []) ->
  running_as st first producer ->
  forallb word ws = true ->
  let h := length (invocations st) in
  let pid := length (processes st) in
  let p := {| p_args := argv_of st me ws; p_stdin := FROM producer; p_stdout := PIPE;
              p_stderr := PIPE; returncode := None |} in
  exists st1 r,
    Command.__call__ w self (VRunning first :: map VStr ws) [] st = (Ok h, st1)
    /\ processes st1 = processes st ++ [p]
    /\ background st1 h r pid p.
Proof.
  intros Hme Hex (r & Hr & Hbg & Hproc) Hws h pid p. unfold Command.__call__.
  erewrite bind_ok; [| apply command_self; exact Hme]; cbv beta iota.
  run_ok. rewrite Hex. run_ok.
  erewrite bind_ok with (a := (<["bg" := VBool true]> default_call_args, FROM producer,
                               None, map VStr ws)).
  2:{ erewrite bind_ok;
        [| unfold RunningCommand.self_, bind, gets; rewrite Hr; reflexivity].
      cbv beta iota.
      erewrite bind_ok; [| eapply getitem_truthy; [exact Hbg | reflexivity]].
      cbv beta iota. rewrite Hproc. reflexivity. }
  cbv beta iota.
  erewrite bind_ok; [| apply compile_words; exact Hws]; cbv beta iota.
  do 6 run_ok.
  eexists _, _. split; [reflexivity |]. split.
  - cbn. unfold p, argv_of. now rewrite <- !app_assoc.
  - split.
    + cbn. rewrite lookup_app_r, Nat.sub_diag by lia. reflexivity.
    + reflexivity.
    + reflexivity.
    + exists (VBool true). split; reflexivity.
    + cbn. rewrite lookup_app_r, Nat.sub_diag by lia. unfold p, argv_of.
      now rewrite <- !app_assoc.
    + reflexivity.
Qed.

End Pipeline.

Lemma call_pipes_stdout_witness :
  exists st1,
    Command.__call__ (exits "out" "" 0) 0 (VRunning 0 :: map VStr ["-l"]) []
      (ls_ran (exits "out" "" 0))
    = (Ok 1, st1)
    /\ (exists p, processes st1 !! 1 = Some p /\ p_args p = ["/bin/ls"; "-l"]
                  /\ returncode p = Some 0%Z)
    /\ RunningCommand.stdout (exits "out" "" 0) 1 st1 = (Ok "out", st1).
Proof.
  apply (call_pipes_stdout (exits "out" "" 0) (ls_ran (exits "out" "" 0)) 0 ls_obj 0
           "out" ["-l"]).
  - reflexivity.
  - reflexivity.
  - eexists. repeat split; reflexivity.
  - reflexivity.
  - cbn. lia.
Defined.

Lemma call_pipes_background_witness :
  exists st1 r,
    Command.__call__ (exits "" "" 0) 0 (VRunning 0 :: map VStr ["-l"]) []
      (backgrounded (exits "" "" 0))
    = (Ok 1, st1)
    /\ processes st1
       = processes (backgrounded (exits "" "" 0))
           ++ [{| p_args := ["/bin/ls"; "-l"]; p_stdin := FROM 0; p_stdout := PIPE;
                  p_stderr := PIPE; returncode := None |}]
    /\ background st1 1 r 1
         {| p_args := ["/bin/ls"; "-l"]; p_stdin := FROM 0; p_stdout := PIPE;
            p_stderr := PIPE; returncode := None |}.
Proof.
  apply (call_pipes_background (exits "" "" 0) (backgrounded (exits "" "" 0)) 0 ls_obj
           0 0 ["-l"]).
  - reflexivity.
  - reflexivity.
  - eexists. repeat split; reflexivity.
  - reflexivity.
Defined.

(** ** The failure message and the text of an invocation *)

Lemma take_short (n : nat) (s : string) :
  String.length s <= n -> PyString.take n s = s.
Proof.
  unfold PyString.take. revert n. induction s as [|c s IH]; intros n Hn.
  - now destruct n.
  - destruct n as [|n]; [cbn in Hn; lia |]. cbn in *. rewrite IH by lia. reflexivity.
Qed.

Lemma take_length (n : nat) (s : string) :
  String.length (PyString.take n s) = Nat.min n (String.length s).
Proof.
  unfold PyString.take. revert n. induction s as [|c s IH]; intros n.
  - destruct n; reflexivity.
  - destruct n as [|n]; [reflexivity |]. cbn. now rewrite IH.
Qed.

(** X24.  The preview of a captured stream in the failure message: a stream of
    at most [truncate_cap] characters is shown whole; of a longer one the
    first [truncate_cap] characters are shown, then the number of
    characters left out. *)
Theorem preview_truncates (attr s : string) (st : interp) :
  let cap := ErrorReturnCode.truncate_cap in
  ErrorReturnCode.preview attr (VStr s) st
  = (Ok (if String.length s <=? cap then s
         else PyString.take cap s +:+ "... ("
                +:+ PyString.of_Z (Z.of_nat (String.length s) - Z.of_nat cap)
                +:+ " more, please see e." +:+ attr +:+ ")"), st)
  /\ String.length (PyString.take cap s) = Nat.min cap (String.length s).
Proof.
  intros cap. split; [| apply take_length].
  unfold ErrorReturnCode.preview. fold cap. cbv zeta. rewrite take_length.
  destruct (Nat.leb_spec (String.length s) cap) as [Hle | Hgt].
  - rewrite Nat.min_r by exact Hle. rewrite Nat.sub_diag. cbn [Nat.eqb].
    now rewrite take_short.
  - rewrite Nat.min_l by lia.
    destruct (Nat.eqb_spec (String.length s - cap) 0) as [E | _]; [lia |].
    rewrite Nat2Z.inj_sub by lia. reflexivity.
Qed.

(** X25.  A finished foreground invocation behaves as the text of its
    standard output: it is compared, measured and searched as that text,
    and an attribute that is not a signal method is looked up on the text;
    none of this changes the state. *)
Theorem reads_as_stdout (w : world) (st : interp) (h : nat) (r : running_obj)
    (pid : nat) (s : string) :
  invocations st !! h = Some r -> process r = Some pid ->
  call_args r !! "bg" = Some (VBool false) ->
  _stdout r = VList [VStr s] ->
  utf8_valid w s = true ->
  (forall t, RunningCommand.__eq__ w h (VStr t) st = (Ok (String.eqb s t), st))
  /\ RunningCommand.__eq__ w h (VRunning h) st = (Ok true, st)
  /\ RunningCommand.__len__ w h st = (Ok (String.length s), st)
  /\ (forall t, RunningCommand.__contains__ w h (VStr t) st
                = (Ok (match String.index 0 t s with Some _ => true | None => false end), st))
  /\ (forall p, signal_method p = false ->
                RunningCommand.__getattr__ w h p st = (Ok (RunningCommand.OfText s p), st))
  /\ (forall p, signal_method p = true ->
                RunningCommand.__getattr__ w h p st = (Ok (RunningCommand.OfProcess pid p), st)).
Proof.
  intros Hr Hpid Hbg Hout Hutf.
  pose proof (str_renders_stdout w st h r pid _ s Hr Hpid Hbg eq_refl Hout Hutf) as Hstr.
  repeat split.
  - intros t. unfold RunningCommand.__eq__.
    erewrite bind_ok; [| exact Hstr]; cbv beta iota. reflexivity.
  - unfold RunningCommand.__eq__.
    erewrite bind_ok; [| exact Hstr]; cbv beta iota.
    erewrite bind_ok; [| exact Hstr]; cbv beta iota.
    unfold ret. now rewrite String.eqb_refl.
  - unfold RunningCommand.__len__. erewrite bind_ok; [| exact Hstr]. reflexivity.
  - intros t. unfold RunningCommand.__contains__.
    erewrite bind_ok; [| exact Hstr]. reflexivity.
  - intros p Hp. unfold RunningCommand.__getattr__. fold (signal_method p). rewrite Hp.
    erewrite bind_ok; [| exact Hstr]. reflexivity.
  - intros p Hp. unfold RunningCommand.__getattr__. fold (signal_method p). rewrite Hp.
    erewrite bind_ok;
      [| unfold RunningCommand.self_, bind, gets; rewrite Hr; reflexivity].
    cbv beta iota. now rewrite Hpid.
Qed.

Lemma reads_as_stdout_witness :
  RunningCommand.__len__ (exits "out" "" 0) 0 (ls_ran (exits "out" "" 0))
  = (Ok 3, ls_ran (exits "out" "" 0))
  /\ RunningCommand.__eq__ (exits "out" "" 0) 0 (VStr "out") (ls_ran (exits "out" "" 0))
     = (Ok true, ls_ran (exits "out" "" 0)).
Proof.
  edestruct (reads_as_stdout (exits "out" "" 0) (ls_ran (exits "out" "" 0)) 0)
    as (Heq & _ & Hlen & _).
  - reflexivity.
  - reflexivity.
  - reflexivity.
  - reflexivity.
  - reflexivity.
  - split; [exact Hlen | exact (Heq "out")].
Defined.

(** ** Witnesses for properties stated above *)

Lemma compile_long_flag_witness :
  Command._compile_args (exits "" "" 0) [] [("no_color", VBool true)] initial_interp
  = (Ok ["--no-color"], initial_interp).
Proof.
  apply (compile_long_flag (exits "" "" 0) initial_interp "no_color");
    [discriminate | reflexivity].
Defined.

Lemma bake_keeps_commands_witness :
  commands (snd (Command.bake (exits "" "" 0) 0 [VStr "-l"] [("_bg", VBool true)] ls_created))
    !! 0 = Some ls_obj.
Proof.
  apply (bake_keeps_commands (exits "" "" 0) 0 [VStr "-l"] [("_bg", VBool true)]
           ls_created 0 ls_obj).
  reflexivity.
Defined.

(** ** Subcommands *)

(** X29.  Subcommands by attribute.  A name that does not start with an
    underscore and is no attribute of [Command] is looked up as a
    subcommand: the lookup returns a [BakedCommand] and changes nothing,
    and calling that with plain words spawns a process whose argv is the
    active prefixes, the path, the baked arguments, the name and the words. *)
Theorem attribute_runs_subcommand (w : world) (st : interp) (c : nat) (me : command_obj)
    (name : string) (ws : list string) :
  commands st !! c = Some me ->
  default_modes me ->
  String.prefix "_" name = false ->
  existsb (String.eqb name) Command.public_names = false ->
  forallb word (name :: ws) = true ->
  Command.__getattribute__ c name st = (Ok (Command.BakedCommand c name), st)
  /\ invoked st (argv_of st me (name :: ws))
       (Command.call_baked w c name (map VStr ws) [] st).
Proof.
  intros Hme Hmodes Hpre Hpub Hws. split.
  - unfold Command.__getattribute__. now rewrite Hpre, Hpub.
  - apply call_baked_runs_subcommand;
      [exact Hme | now apply extract_default_modes | exact Hws].
Qed.

Lemma attribute_runs_subcommand_witness :
  Command.__getattribute__ 0 "status" ls_created
  = (Ok (Command.BakedCommand 0 "status"), ls_created)
  /\ invoked ls_created (argv_of ls_created ls_obj ["status"; "-s"])
       (Command.call_baked (exits "" "" 0) 0 "status" (map VStr ["-s"]) [] ls_created).
Proof.
  apply (attribute_runs_subcommand (exits "" "" 0) ls_created 0 ls_obj "status" ["-s"]);
    [reflexivity | left; reflexivity | reflexivity | reflexivity | reflexivity].
Defined.
